(** * dot2tex: the conversion driver ([dot2tex/dot2tex.py])

    A shallow embedding of [create_options_parser], [load_dot_file], [main]
    and [convert_graph], together with the pieces of the Python library
    they call ([str.splitlines], [str.strip], [str.split], the three
    regular expressions given to [re.search] / [re.findall], and
    [argparse.ArgumentParser.parse_args] for the actions the parser
    declares).

    Text is modelled by [string]: Python code points 0..255. *)

From Stdlib Require Import ZArith NArith Ascii String DecimalString DecimalNat.
From stdpp Require Import base option list strings gmap fin_maps.

Open Scope string_scope.

(** ** Text primitives of the Python runtime *)

Module Text.

Definition code (c : ascii) : N := N_of_ascii c.

Definition newline : ascii := ascii_of_N 10.
Definition carriage_return : ascii := ascii_of_N 13.

Definition dquote : ascii := ascii_of_N 34.

Definition is_nl (c : ascii) : bool := N.eqb (code c) 10.

(** [str.isspace] on one character, which is also the class [\s] of [re]
    on [str] patterns: TAB LF VT FF CR, FS GS RS US, SPACE, NEL, NBSP. *)
Definition is_space (c : ascii) : bool :=
  let n := code c in
  (N.leb 9 n && N.leb n 13) || (N.leb 28 n && N.leb n 32)
  || N.eqb n 133 || N.eqb n 160.

(** The class [[a-z]]. *)
Definition is_lower (c : ascii) : bool :=
  let n := code c in N.leb 97 n && N.leb n 122.

(** The class [.] (without [re.DOTALL]): anything but LF. *)
Definition is_dot (c : ascii) : bool := negb (is_nl c).

(** Line boundaries of [str.splitlines], CR LF apart: LF VT FF CR FS GS RS
    NEL. *)
Definition is_linebreak (c : ascii) : bool :=
  let n := code c in
  (N.leb 10 n && N.leb n 13) || (N.leb 28 n && N.leb n 30) || N.eqb n 133.

Fixpoint all_space (s : string) : bool :=
  match s with
  | EmptyString => true
  | String c s' => is_space c && all_space s'
  end.

(** [bool(line.strip())]: a line is kept when some character of it is not
    white space. *)
Definition strip_nonempty (line : string) : bool := negb (all_space line).

Fixpoint lstrip (s : string) : string :=
  match s with
  | EmptyString => EmptyString
  | String c s' => if is_space c then lstrip s' else s
  end.

(** No LF in the text; the text ends with LF. *)
Fixpoint no_nl (s : string) : bool :=
  match s with
  | EmptyString => true
  | String c s' => negb (is_nl c) && no_nl s'
  end.

Fixpoint ends_nl (s : string) : bool :=
  match s with
  | EmptyString => false
  | String c EmptyString => is_nl c
  | String _ s' => ends_nl s'
  end.

(** The text [x] before a position is empty ([bol] then tells whether a
    line starts there) or ends with LF: a line starts at the position. *)
Definition at_line_start (bol : bool) (x : string) : Prop :=
  match x with EmptyString => bol = true | _ => ends_nl x = true end.

(** A text without LF and without closing brace. *)
Fixpoint plain_name (s : string) : bool :=
  match s with
  | EmptyString => true
  | String c s' => negb (is_nl c) && negb (Ascii.eqb "}" c) && plain_name s'
  end.

Definition snoc (s : string) (c : ascii) : string := s +:+ String c EmptyString.

(** [s.splitlines(True)]: [cur] is the line being read. *)
Fixpoint splitlines_from (cur : string) (s : string) : list string :=
  match s with
  | EmptyString => if String.eqb cur EmptyString then [] else [cur]
  | String c s' =>
      if is_linebreak c then
        if N.eqb (code c) 13 then
          match s' with
          | String d s'' =>
              if is_nl d then snoc (snoc cur c) d :: splitlines_from EmptyString s''
              else snoc cur c :: splitlines_from EmptyString s'
          | EmptyString => [snoc cur c]
          end
        else snoc cur c :: splitlines_from EmptyString s'
      else splitlines_from (snoc cur c) s'
  end.

Definition splitlines (s : string) : list string := splitlines_from EmptyString s.

(** [f.readlines()] on a text file: the content is the decoded text, its
    newlines already translated, and lines end at LF only. *)
Fixpoint readlines_from (cur : string) (s : string) : list string :=
  match s with
  | EmptyString => if String.eqb cur EmptyString then [] else [cur]
  | String c s' =>
      if is_nl c then snoc cur c :: readlines_from EmptyString s'
      else readlines_from (snoc cur c) s'
  end.

Definition readlines (s : string) : list string := readlines_from EmptyString s.

(** [join]: the lines put back together, with nothing between them. *)
Definition join (lines : list string) : string :=
  foldr String.app EmptyString lines.

(** [s.split()]: the maximal runs of characters that are not white space. *)
Fixpoint split_from (cur : string) (s : string) : list string :=
  match s with
  | EmptyString => if String.eqb cur EmptyString then [] else [cur]
  | String c s' =>
      if is_space c then
        if String.eqb cur EmptyString then split_from EmptyString s'
        else cur :: split_from EmptyString s'
      else split_from (snoc cur c) s'
  end.

Definition split (s : string) : list string := split_from EmptyString s.

End Text.

(** ** The regular expressions of [main]

    The three patterns are sequences of atoms, matched by backtracking in
    the order of [re]: a greedy repetition tries the longest run first, a
    lazy one the shortest. Each pattern has one group, around a
    repetition. *)

Module Re.
Import Text.

Inductive cclass := CSpace | CLower | CDot.

Definition in_class (cl : cclass) (c : ascii) : bool :=
  match cl with
  | CSpace => is_space c
  | CLower => is_lower c
  | CDot => is_dot c
  end.

Inductive atom :=
| ABol                                             (* ^ under re.MULTILINE *)
| AChr (c : ascii)                                 (* a literal character *)
| AOpt (c : ascii)                                 (* c? *)
| ARep (greedy : bool) (least : nat) (cl : cclass) (group : bool).
                                     (* cl* cl*? cl+?, in a group or not *)

Definition regex := list atom.

(** A match: the text of group 1, what follows the match, and whether
    the match ends at the start of a line. *)
Record found := Found { group1 : string; rest : string; rest_bol : bool }.

Definition lit (s : string) : regex := AChr <$> list_ascii_of_string s.

Definition orelse {A} (x y : option A) : option A :=
  match x with Some _ => x | None => y end.

Definition set_group (grp : bool) (seen : string) (r : found) : found :=
  if grp then Found seen (rest r) (rest_bol r) else r.

(** The repetition [cl{least,}] followed by the continuation [k]; [seen]
    is what it has consumed, [n] its length, [bol] whether the position is
    at the start of a line. *)
Fixpoint rep (greedy : bool) (least : nat) (cl : cclass) (grp : bool)
    (k : bool -> string -> option found)
    (bol : bool) (seen : string) (n : nat) (s : string) : option found :=
  let stop :=
    if Nat.leb least n then set_group grp seen <$> k bol s else None in
  match s with
  | String c s' =>
      if in_class cl c then
        let more := rep greedy least cl grp k (is_nl c) (snoc seen c) (S n) s' in
        if greedy then orelse more stop else orelse stop more
      else stop
  | EmptyString => stop
  end.

Definition chr (c : ascii) (k : bool -> string -> option found)
    (s : string) : option found :=
  match s with
  | String d s' => if Ascii.eqb c d then k (is_nl d) s' else None
  | EmptyString => None
  end.

(** Matching at one position. *)
Fixpoint match_here (re : regex) : bool -> string -> option found :=
  match re with
  | [] => fun bol s => Some (Found EmptyString s bol)
  | a :: re' =>
      let k := match_here re' in
      match a with
      | ABol => fun bol s => if bol then k bol s else None
      | AChr c => fun _ s => chr c k s
      | AOpt c => fun bol s => orelse (chr c k s) (k bol s)
      | ARep g least cl grp => fun bol s => rep g least cl grp k bol EmptyString 0 s
      end
  end.

(** [re.search]: the leftmost position with a match. *)
Fixpoint search_from (re : regex) (bol : bool) (s : string) : option found :=
  match match_here re bol s with
  | Some r => Some r
  | None =>
      match s with
      | String c s' => search_from re (is_nl c) s'
      | EmptyString => None
      end
  end.

Definition search (re : regex) (s : string) : option found :=
  search_from re true s.

(** [re.findall] for a pattern with one group: the group of each match,
    left to right, the scan resuming where the last match ended (one
    character further when the match consumed nothing up to there). *)
Fixpoint findall_fuel (fuel : nat) (re : regex) (bol : bool) (s : string)
    : list string :=
  match fuel with
  | O => []
  | S fuel' =>
      match search_from re bol s with
      | None => []
      | Some r =>
          if Nat.ltb (String.length (rest r)) (String.length s) then
            group1 r :: findall_fuel fuel' re (rest_bol r) (rest r)
          else
            match rest r with
            | String c rest' => group1 r :: findall_fuel fuel' re (is_nl c) rest'
            | EmptyString => [group1 r]
            end
      end
  end.

Definition findall (re : regex) (s : string) : list string :=
  findall_fuel (S (String.length s)) re true s.

(** The pattern of [re.search]: start of line, [\s*], the text
    [\input] and an opening brace, the group [filename] = [.+?], a closing
    brace. *)
Definition input_re : regex :=
  ([ABol; ARep true 0 CSpace false] ++ lit "\input{"
   ++ [ARep false 1 CDot true] ++ lit "}")%list.

(** The same pattern after [\s*]. *)
Definition input_tail : regex :=
  (lit "\input{" ++ [ARep false 1 CDot true] ++ lit "}")%list.

(** The first pattern of [re.findall]: the text [d2toutputformat=], then
    a group of lower-case letters, as many as there are (possibly none). *)
Definition fmtattr_re : regex :=
  (lit "d2toutputformat=" ++ [ARep true 0 CLower true])%list.

(** The second pattern of [re.findall]: start of line, [\s*], the text
    [d2toptions], [\s*], an equals sign, [\s*], a double quote, the group
    [.*?], a double quote, [\s*], an optional semicolon. *)
Definition extraoptions_re : regex :=
  ([ABol; ARep true 0 CSpace false] ++ lit "d2toptions"
   ++ [ARep true 0 CSpace false; AChr "="%char; ARep true 0 CSpace false;
       AChr dquote; ARep false 0 CDot true; AChr dquote;
       ARep true 0 CSpace false; AOpt ";"%char])%list.

End Re.

(** ** Python values, exceptions *)

Module Py.

(** The values an option can hold. [VEmptyList] is the empty list that
    [argparse] stores for an explicit argument [--]. *)
Inductive value :=
| VNone
| VBool (b : bool)
| VInt (n : Z)
| VStr (s : string)
| VEmptyList.

(** [bool(v)]. *)
Definition truthy (v : value) : bool :=
  match v with
  | VNone => false
  | VBool b => b
  | VInt n => negb (Z.eqb n 0)
  | VStr s => negb (String.eqb s EmptyString)
  | VEmptyList => false
  end.

(** [a or b]. *)
Definition py_or (a b : value) : value := if truthy a then a else b.

Inductive exn :=
| SystemExit (status : Z)
| ParseException (line : string) (column : Z) (msg : string)
| OSError (filename : string)
| OtherException (msg : string).

(** What a call gives: a value or a raised exception. *)
Inductive outcome (A : Type) :=
| Ok (a : A)
| Raise (e : exn).
Arguments Ok {A} a.
Arguments Raise {A} e.

End Py.

(** ** [argparse]

    [ArgumentParser.parse_args] of CPython 3.11 for what
    [create_options_parser] declares: [store] and [store_true] options,
    the [help] option every parser has, and one positional of
    [nargs='?']. An error ([parser.error]) is [SystemExit 2], help is
    [SystemExit 0]; what they write to the terminal is left out. *)

Module Argparse.
Import Text Py.

Inductive akind := Store | StoreTrue | Help.

Record action := Action {
  option_strings : list string;   (* empty for the positional *)
  dest : string;
  kind : akind;
  default : value;
  choices : option (list string)
}.

Definition parser := list action.

(** [parser._option_string_actions], in the order of insertion. *)
Definition option_string_actions (p : parser) : list (string * action) :=
  a ← p; (fun o => (o, a)) <$> option_strings a.

Definition find_option (p : parser) (o : string) : option action :=
  snd <$> List.find (fun oa => String.eqb (fst oa) o) (option_string_actions p).

Definition positionals (p : parser) : list action :=
  List.filter (fun a => match option_strings a with [] => true | _ => false end) p.

(** The defaults that the name space lacks are added; [help] has no
    destination. *)
Definition fill_defaults (p : parser) (ns : gmap string value)
    : gmap string value :=
  foldl (fun ns a =>
           match kind a with
           | Help => ns
           | _ => match ns !! dest a with
                  | Some _ => ns
                  | None => <[dest a := default a]> ns
                  end
           end) ns p.

(** [s.split('=', 1)] when [s] has an equals sign. *)
Fixpoint split_eq (s : string) : option (string * string) :=
  match s with
  | EmptyString => None
  | String c s' =>
      if Ascii.eqb c "=" then Some (EmptyString, s')
      else (fun r : string * string => (String c r.1, r.2)) <$> split_eq s'
  end.

Definition is_digit (c : ascii) : bool :=
  let n := code c in N.leb 48 n && N.leb n 57.

Fixpoint all_digits (s : string) : bool :=
  match s with
  | EmptyString => true
  | String c s' => is_digit c && all_digits s'
  end.

(** Digits up to a dot, then at least one digit and nothing else. *)
Fixpoint digits_dot_digits (s : string) : bool :=
  match s with
  | EmptyString => false
  | String c s' =>
      if Ascii.eqb c "." then
        negb (String.eqb s' EmptyString) && all_digits s'
      else is_digit c && digits_dot_digits s'
  end.

(** [parser._negative_number_matcher]: a minus sign and digits, or a minus
    sign, digits if any, a dot and digits. *)
Definition negative_number (s : string) : bool :=
  match s with
  | String "-" s' =>
      (negb (String.eqb s' EmptyString) && all_digits s') || digits_dot_digits s'
  | _ => false
  end.

Fixpoint has_space (s : string) : bool :=
  match s with
  | EmptyString => false
  | String c s' => Ascii.eqb c " " || has_space s'
  end.

(** How an argument string is read. *)
Inductive tok :=
| TArg                                   (* 'A': an argument *)
| TDashes                                (* '-': the string of two dashes *)
| TOpt (a : option action) (option_string : string) (explicit_arg : option string).

(** [parser._get_option_tuples]. *)
Definition get_option_tuples (p : parser) (arg : string)
    : list (action * string * option string) :=
  match arg with
  | String "-" (String "-" _) =>
      let '(option_prefix, explicit_arg) :=
        match split_eq arg with
        | Some (o, e) => (o, Some e)
        | None => (arg, None)
        end in
      omap (fun oa : string * action =>
              if String.prefix option_prefix oa.1
              then Some (oa.2, oa.1, explicit_arg) else None)
           (option_string_actions p)
  | String "-" (String c rest) =>
      let short_option_prefix := String "-" (String c EmptyString) in
      omap (fun oa : string * action =>
              if String.eqb oa.1 short_option_prefix
              then Some (oa.2, oa.1, Some rest)
              else if String.prefix arg oa.1
              then Some (oa.2, oa.1, None) else None)
           (option_string_actions p)
  | _ => []
  end.

(** [parser._parse_optional]; [None] is the error of an ambiguous
    option. *)
Definition parse_optional (p : parser) (arg : string) : option tok :=
  match arg with
  | EmptyString => Some TArg
  | String c rest =>
      if negb (Ascii.eqb c "-") then Some TArg
      else match find_option p arg with
      | Some a => Some (TOpt (Some a) arg None)
      | None =>
          if String.eqb rest EmptyString then Some TArg
          else
            let by_eq :=
              match split_eq arg with
              | Some (o, e) =>
                  (fun a => TOpt (Some a) o (Some e)) <$> find_option p o
              | None => None
              end in
            match by_eq with
            | Some t => Some t
            | None =>
                match get_option_tuples p arg with
                | [(a, o, e)] => Some (TOpt (Some a) o e)
                | _ :: _ :: _ => None
                | [] =>
                    if negative_number arg then Some TArg
                    else if has_space arg then Some TArg
                    else Some (TOpt None arg None)
                end
            end
      end
  end.

(** The pattern of the argument strings: after the string of two dashes
    everything is an argument. *)
Fixpoint classify (p : parser) (args : list string) : option (list tok) :=
  match args with
  | [] => Some []
  | arg :: args' =>
      if String.eqb arg "--" then Some (TDashes :: (const TArg <$> args'))
      else
        t ← parse_optional p arg;
        ts ← classify p args';
        Some (t :: ts)
  end.

(** An action about to be taken, with its argument string if it has
    one. *)
Definition taking : Type := action * option string.

Definition single_dash (option_string : string) : bool :=
  match option_string with
  | String _ (String c _) => negb (Ascii.eqb c "-")
  | _ => false
  end.

(** The option has an explicit argument [ex] (after an equals sign, or
    glued to a short option). A [store] takes it. An option without
    argument, if short, passes it on as further short options; the last of
    them may be left without explicit argument. [None] is the error
    [ignored explicit argument]. *)
Fixpoint with_explicit (p : parser) (a : action) (option_string ex : string)
    : option (list taking * option action) :=
  match kind a with
  | Store => Some ([(a, Some ex)], None)
  | _ =>
      if single_dash option_string then
        match ex with
        | String c ex' =>
            let o := String "-" (String c EmptyString) in
            match find_option p o with
            | Some a' =>
                match ex' with
                | EmptyString => Some ([(a, None)], Some a')
                | _ =>
                    (fun r : list taking * option action => ((a, None) :: r.1, r.2))
                      <$> with_explicit p a' o ex'
                end
            | None => None
            end
        | EmptyString => None
        end
      else None
  end.

(** The option has no explicit argument: a [store] takes the next string,
    which has to be an argument; the [bool] tells whether it did. [None]
    is the error [expected one argument]. *)
Definition following (a : action) (rest : list (string * tok))
    : option (list taking * bool) :=
  match kind a with
  | Store =>
      match rest with
      | (v, TArg) :: _ => Some ([(a, Some v)], true)
      | _ => None
      end
  | _ => Some ([(a, None)], false)
  end.

(** [consume_optional] for a known option. *)
Definition consume_optional (p : parser) (a : action) (option_string : string)
    (ex : option string) (rest : list (string * tok))
    : option (list taking * bool) :=
  match ex with
  | None => following a rest
  | Some e =>
      '(ts, trailing) ← with_explicit p a option_string e;
      match trailing with
      | None => Some (ts, false)
      | Some a' => '(t, b) ← following a' rest; Some ((ts ++ t)%list, b)
      end
  end.

(** [take_action]: the assignment made, or the exit status. The explicit
    argument [--] is dropped by [_get_values], which leaves the empty
    list as value. *)
Definition take_action (t : taking) : Z + (string * value) :=
  match kind t.1, t.2 with
  | Help, _ => inl 0%Z
  | StoreTrue, _ => inr (dest t.1, VBool true)
  | Store, Some v =>
      if String.eqb v "--" then inr (dest t.1, VEmptyList)
      else match choices t.1 with
           | Some cs =>
               if existsb (String.eqb v) cs then inr (dest t.1, VStr v)
               else inl 2%Z
           | None => inr (dest t.1, VStr v)
           end
  | Store, None => inr (dest t.1, default t.1)
  end.

Fixpoint take_actions (ts : list taking) : Z + list (string * value) :=
  match ts with
  | [] => inr []
  | t :: ts' =>
      match take_action t with
      | inl status => inl status
      | inr asg =>
          match take_actions ts' with
          | inl status => inl status
          | inr asgs => inr (asg :: asgs)
          end
      end
  end.

Definition is_opt (it : string * tok) : bool :=
  match it.2 with TOpt _ _ _ => true | _ => false end.

(** [consume_positionals] for the one positional: dashes, an argument if
    there is one, dashes. Gives the argument and how many strings were
    used. *)
Definition match_positional (items : list (string * tok))
    : option string * nat :=
  match items with
  | (_, TDashes) :: (v, TArg) :: _ => (Some v, 2)
  | (_, TDashes) :: _ => (None, 1)
  | (v, TArg) :: (_, TDashes) :: _ => (Some v, 2)
  | (v, TArg) :: _ => (Some v, 1)
  | _ => (None, 0)
  end.

Definition positional_value (a : action) (v : option string) : string * value :=
  (dest a, match v with Some s => VStr s | None => default a end).

(** The loop of [_parse_known_args] over the argument strings still to
    read: [pos] is the positional not yet taken. The result is the
    assignments in the order they are made, and whether strings were left
    over ([extras]); or the exit status of an error or of [help]. *)
Fixpoint consume (p : parser) (pos : option action)
    (items : list (string * tok)) : Z + (list (string * value) * bool) :=
  let continue (now : Z + list (string * value)) (extras : bool)
               (next : Z + (list (string * value) * bool)) :=
    match now with
    | inl status => inl status
    | inr asgs =>
        match next with
        | inl status => inl status
        | inr (asgs', extras') => inr ((asgs ++ asgs')%list, extras || extras')
        end
    end in
  match items with
  | [] =>
      inr (match pos with
           | Some a => [positional_value a None]
           | None => []
           end, false)
  | (arg, t) :: rest =>
      match t with
      | TOpt None _ _ => continue (inr []) true (consume p pos rest)
      | TOpt (Some a) o ex =>
          match consume_optional p a o ex rest with
          | None => inl 2%Z
          | Some (ts, used_next) =>
              continue (take_actions ts) false
                (match used_next, rest with
                 | true, _ :: rest' => consume p pos rest'
                 | _, _ => consume p pos rest
                 end)
          end
      | _ =>
          match pos with
          | Some a =>
              let '(v, n) := match_positional items in
              continue (inr [positional_value a v]) false
                (match n, rest with
                 | 2, _ :: rest' => consume p None rest'
                 | _, _ => consume p None rest
                 end)
          | None => continue (inr []) true (consume p None rest)
          end
      end
  end.

(** The assignments that the argument strings make, or the exit status. *)
Definition plan (p : parser) (args : list string)
    : Z + list (string * value) :=
  match classify p args with
  | None => inl 2%Z
  | Some toks =>
      match consume p (head (positionals p)) (zip args toks) with
      | inl status => inl status
      | inr (asgs, extras) => if extras then inl 2%Z else inr asgs
      end
  end.

Definition assign (ns : gmap string value) (asgs : list (string * value))
    : gmap string value :=
  foldl (fun ns kv => <[kv.1 := kv.2]> ns) ns asgs.

(** The last assignment made to [k], if any. *)
Definition last_assigned (k : string) (asgs : list (string * value))
    : option value :=
  snd <$> List.find (fun kv => String.eqb kv.1 k) (rev asgs).

(** [parser.parse_args(args, namespace)]. *)
Definition parse_args (p : parser) (args : list string)
    (ns : gmap string value) : outcome (gmap string value) :=
  match plan p args with
  | inl status => Raise (SystemExit status)
  | inr asgs => Ok (assign (fill_defaults p ns) asgs)
  end.

End Argparse.

(** ** [dot2tex.py] *)

Module Dot2tex.
Import Text Re Py Argparse.

Section Options.

(** [from .base import DEFAULT_TEXTENCODING, DEFAULT_OUTPUT_FORMAT]: the
    two constants are defined outside this file. *)
Variable DEFAULT_TEXTENCODING : string.
Variable DEFAULT_OUTPUT_FORMAT : string.

Definition flag (opts : list string) (d : string) : action :=
  Action opts d StoreTrue (VBool false) None.

Definition store (opts : list string) (d : string) (dflt : value)
    (cs : option (list string)) : action :=
  Action opts d Store dflt cs.

(** [create_options_parser()]: the actions in the order they are added,
    after the [help] option that [ArgumentParser] adds itself. *)
Definition create_options_parser : parser :=
  [ Action ["-h"; "--help"] "help" Help VNone None;
    store ["-f"; "--format"] "format" VNone
      (Some ["pstricks"; "pgf"; "pst"; "tikz"; "psn"]);
    store ["-t"; "--texmode"] "texmode" (VStr "verbatim")
      (Some ["math"; "verbatim"; "raw"]);
    flag ["-d"; "--duplicate"] "duplicate";
    flag ["-s"; "--straightedges"] "straightedges";
    store ["--template"] "templatefile" VNone None;
    store ["-o"; "--output"] "outputfile" VNone None;
    flag ["--force"] "force";
    store ["-e"; "--encoding"] "encoding" (VStr DEFAULT_TEXTENCODING)
      (Some ["utf8"; "latin1"]);
    flag ["-V"; "--version"] "printversion";
    flag ["-w"; "--switchdraworder"] "switchdraworder";
    flag ["-p"; "-c"; "--preview"; "--crop"] "crop";
    store ["--margin"] "margin" (VStr "0pt") None;
    store ["--docpreamble"] "docpreamble" VNone None;
    store ["--figpreamble"] "figpreamble" VNone None;
    store ["--figpostamble"] "figpostamble" VNone None;
    store ["--graphstyle"] "graphstyle" VNone None;
    flag ["--gvcols"] "gvcols";
    flag ["--figonly"] "figonly";
    flag ["--codeonly"] "codeonly";
    flag ["--styleonly"] "styleonly";
    flag ["--debug"] "debug";
    flag ["--preproc"] "texpreproc";
    store ["--alignstr"] "alignstr" VNone None;
    store ["--valignmode"] "valignmode" (VStr "center")
      (Some ["center"; "dot"]);
    flag ["--nominsize"] "nominsize";
    flag ["--usepdflatex"] "usepdflatex";
    flag ["--tikzedgelabels"] "tikzedgelabels";
    store ["--nodeoptions"] "nodeoptions" VNone None;
    store ["--edgeoptions"] "edgeoptions" VNone None;
    flag ["--runtests"] "runtests";
    store ["--prog"] "prog" (VStr "dot")
      (Some ["dot"; "neato"; "circo"; "fdp"; "twopi"]);
    store ["--progoptions"] "progoptions" (VStr EmptyString) None;
    flag ["--autosize"] "autosize";
    flag ["--cache"] "cache";
    flag ["--pgf118"] "pgf118";
    flag ["--pgf210"] "pgf210";
    store [] "inputfile" VNone None ].

End Options.

(** *** The world of a run, and the monad of [main] *)

Record file := File { content : string; mtime : Z }.

Inductive level := DEBUG | INFO | WARNING | ERROR.

Record world := World {
  files : gmap string file;          (* the file system, by path *)
  sys_argv : list string;            (* sys.argv *)
  stdin : string;                    (* what sys.stdin holds *)
  clock : Z;                         (* the time given to a file written *)
  logged : list (level * string);    (* the calls of log, latest first *)
  printed : list string              (* the calls of print, latest first *)
}.

Definition M (A : Type) : Type := world -> outcome A * world.

Definition ret {A} (a : A) : M A := fun w => (Ok a, w).

Definition raise {A} (e : exn) : M A := fun w => (Raise e, w).

Definition bind {A B} (m : M A) (k : A -> M B) : M B :=
  fun w => match m w with
           | (Ok a, w') => k a w'
           | (Raise e, w') => (Raise e, w')
           end.

(** [try: m except: h] with a bare [except], which catches everything. *)
Definition try_except {A} (m : M A) (h : exn -> M A) : M A :=
  fun w => match m w with
           | (Ok a, w') => (Ok a, w')
           | (Raise e, w') => h e w'
           end.

Definition lift {A} (o : outcome A) : M A := fun w => (o, w).

Declare Scope m_scope.
Delimit Scope m_scope with m.
Notation "x <- c ;; k" := (bind c (fun x => k))
  (at level 100, c at next level, right associativity) : m_scope.
Notation "c ;;; k" := (bind c (fun _ => k))
  (at level 100, right associativity) : m_scope.
Open Scope m_scope.

(** The world after a call of [log]. *)
Definition add_log (l : level) (msg : string) (w : world) : world :=
  World (files w) (sys_argv w) (stdin w) (clock w) ((l, msg) :: logged w)
        (printed w).

Definition log (l : level) (msg : string) : M unit :=
  fun w => (Ok tt, add_log l msg w).

(** The world after the messages that start a run. *)
Definition start_log (w : world) : world :=
  add_log INFO "Program started in"
    (add_log INFO "dot2tex called with:"
       (add_log INFO "System information:"
          (add_log INFO "Dot2tex version 2.12.dev"
             (add_log INFO "------- Start of run -------" w)))).


Definition print (s : string) : M unit :=
  fun w => (Ok tt, World (files w) (sys_argv w) (stdin w) (clock w)
                         (logged w) (s :: printed w)).

Definition sys_exit {A} (status : Z) : M A := raise (SystemExit status).

Definition get {A} (f : world -> A) : M A := fun w => (Ok (f w), w).

(** [open(name, 'w')] and [f.write(s)]. *)
Definition write_file (name s : string) : M unit :=
  fun w => (Ok tt, World (<[name := File s (clock w)]> (files w)) (sys_argv w)
                         (stdin w) (clock w) (logged w) (printed w)).

(** [options.name]: an attribute the name space lacks is an
    [AttributeError]. *)
Definition attr (options : gmap string value) (name : string) : M value :=
  match options !! name with
  | Some v => ret v
  | None => raise (OtherException "AttributeError")
  end.

(** [load_dot_file(filename)]: a file that cannot be opened raises. *)
Definition load_dot_file (filename : string) : M (list string) :=
  fs <- get files;;
  match fs !! filename with
  | Some f =>
      log INFO ("Data read from " +:+ filename);;;
      ret (readlines (content f))
  | None => raise (OSError filename)
  end.

(** A path given to [os] or [open] has to be a string. *)
Definition as_path (v : value) : M string :=
  match v with
  | VStr s => ret s
  | _ => raise (OtherException "TypeError")
  end.

(** [path.basename], [path.dirname] and [path.join] on POSIX paths. *)
Fixpoint basename (s : string) : string :=
  match s with
  | EmptyString => EmptyString
  | String c s' =>
      if Ascii.eqb c "/" then basename s'
      else if existsb (Ascii.eqb "/") (list_ascii_of_string s') then basename s'
      else s
  end.

Fixpoint rstrip_slashes (rev : list ascii) : list ascii :=
  match rev with
  | c :: rev' => if Ascii.eqb c "/" then rstrip_slashes rev' else rev
  | [] => []
  end.

Definition dirname (s : string) : string :=
  let head := String.substring 0 (String.length s - String.length (basename s)) s in
  if forallb (Ascii.eqb "/") (list_ascii_of_string head) then head
  else string_of_list_ascii
         (rev (rstrip_slashes (rev (list_ascii_of_string head)))).

Definition path_join (a b : string) : string :=
  match b with
  | String "/" _ => b
  | _ =>
      match rev (list_ascii_of_string a) with
      | [] => b
      | c :: _ => if Ascii.eqb c "/" then a +:+ b else a +:+ "/" +:+ b
      end
  end.

(** *** [main] *)

(** The converter classes that [main] chooses from. *)
Inductive converter :=
| Dot2PSTricksConv
| Dot2PSTricksNConv
| Dot2PGFConv
| Dot2TikZConv
| PositionsDotConv.

(** The branches on [output_format]. *)
Definition select_converter (output_format : value) : option converter :=
  match output_format with
  | VStr f =>
      if String.eqb f "pstricks" || String.eqb f "pst" then Some Dot2PSTricksConv
      else if String.eqb f "psn" then Some Dot2PSTricksNConv
      else if String.eqb f "pgf" then Some Dot2PGFConv
      else if String.eqb f "tikz" then Some Dot2TikZConv
      else if String.eqb f "positions" then Some PositionsDotConv
      else None
  | _ => None
  end.

(** The names with a branch in [main], and the [choices] of [-f]. *)
Definition formats_of_main : list string :=
  ["pstricks"; "pst"; "psn"; "pgf"; "tikz"; "positions"].

Definition formats_of_command_line : list string :=
  ["pstricks"; "pgf"; "pst"; "tikz"; "psn"].

Definition show (v : value) : string :=
  match v with VStr s => s | _ => EmptyString end.

Section Main.

Variable DEFAULT_TEXTENCODING : string.
Variable DEFAULT_OUTPUT_FORMAT : string.

(** The converter classes are defined in [pgfformat] and [pstricksformat]:
    an object of a class is made from the options, [convert] gives the
    code or raises and may change the object, and [main] sets
    [dopreproc] to [False] on it. *)
Variable conv : Type.
Variable conv_new : converter -> gmap string value -> conv.
Variable conv_convert : conv -> string -> outcome string * conv.
Variable conv_set_dopreproc_false : conv -> conv.

(** [hashlib.md5] of the text and [pickle] of the table of hashes, for the
    cache of the command line. *)
Variable md5_digest : string -> string.
Variable pickle_load : string -> option (gmap string string).
Variable pickle_dump : gmap string string -> string.

Definition the_parser : parser := create_options_parser DEFAULT_TEXTENCODING.

(** The command line only: version, the input from [stdin] or from the
    input file, unless the output file is newer. *)
Definition read_input (options : gmap string value) : M (list string) :=
  printversion <- attr options "printversion";;
  if truthy printversion then
    print "Dot2tex version 2.12.dev";;; sys_exit 0
  else
    inputfile <- attr options "inputfile";;
    match inputfile with
    | VNone =>
        log INFO "Data read from standard input";;;
        data <- get stdin;;
        ret (readlines data)
    | _ =>
        outputfile <- attr options "outputfile";;
        force <- attr options "force";;
        (match outputfile, force with
         | VNone, _ => ret tt
         | _, VBool false =>
             i <- as_path inputfile;;
             o <- as_path outputfile;;
             fs <- get files;;
             match fs !! i, fs !! o with
             | Some fi, Some fo =>
                 if Z.ltb (mtime fi) (mtime fo) then
                   print "skip: input file older than output file.";;;
                   sys_exit 0
                 else ret tt
             | _, _ => ret tt
             end
         | _, _ => ret tt
         end);;;
        try_except
          (log DEBUG ("Attempting to read data from " +:+ show inputfile);;;
           i <- as_path inputfile;;
           load_dot_file i)
          (fun _ =>
             log ERROR ("Failed to load file " +:+ show inputfile);;;
             sys_exit 1)
    end.

(** The line with an [\input]: the file named replaces the data. *)
Definition follow_input (run_as_module : bool) (dotdata : list string)
    : M (list string) :=
  match search input_re (join dotdata) with
  | Some m =>
      let filename := group1 m in
      log INFO ("Found \input{" +:+ filename +:+ "}");;;
      try_except (load_dot_file filename)
        (fun e =>
           log ERROR ("Failed to load \input{" +:+ filename +:+ "}");;;
           if run_as_module then raise e else sys_exit 1)
  | None => ret dotdata
  end.

(** [lines = [line for line in dotdata if line.strip()]] and the join. *)
Definition strip_blank_lines (dotdata : list string) : string :=
  join (List.filter strip_nonempty dotdata).

(** The cache of the command line. *)
Definition check_cache (options : gmap string value) (dotdata : string)
    : M unit :=
  inputfile <- attr options "inputfile";;
  outputfile <- attr options "outputfile";;
  match inputfile with
  | VNone =>
      log WARNING "You need to specify an input and output file for caching to work"
  | _ =>
      if truthy outputfile then
        log INFO "Caching enabled";;;
        inputfilename <- as_path inputfile;;
        argv <- get sys_argv;;
        let inputhash := md5_digest (dotdata +:+ join argv) in
        let hashfilename := path_join (dirname inputfilename) "dot2tex.cache" in
        let key := basename inputfilename in
        fs <- get files;;
        hashes <-
          match fs !! hashfilename with
          | Some f =>
              log INFO ("Loading hash file " +:+ hashfilename);;;
              match pickle_load (content f) with
              | Some h => ret h
              | None => log ERROR "Failed to load hashfile";;; ret ∅
              end
          | None => ret ∅
          end;;
        o <- (if decide (hashes !! key = Some inputhash)
              then as_path outputfile else ret EmptyString);;
        if decide (hashes !! key = Some inputhash ∧ is_Some (fs !! o)) then
          log INFO "Input has not changed. Will not convert input file";;;
          sys_exit 0
        else
          log INFO "Hash or output file not found. Converting file";;;
          write_file hashfilename (pickle_dump (<[key := inputhash]> hashes))
      else
        log WARNING "You need to specify an input and output file for caching to work"
  end.

(** The options that the graph itself gives: the first [d2toutputformat]
    and the first [d2toptions]. *)
Definition graph_format (dotdata : string) : value :=
  match findall fmtattr_re dotdata with
  | f :: _ => VStr f
  | [] => VNone
  end.

(** [extraoptions[0]], if there is one. *)
Definition d2toptions (dotdata : string) : option string :=
  head (findall extraoptions_re dotdata).

Definition merge_graph_options (dotdata : string)
    (options : gmap string value) : M (gmap string value) :=
  match d2toptions dotdata with
  | Some o =>
      log DEBUG ("Found d2toptions attribute in graph: " +:+ o);;;
      lift (parse_args the_parser (split o) options)
  | None => ret options
  end.

(** What the arguments of [d2toptions] assign, in the order of
    assignment; nothing when the graph has no [d2toptions]. *)
Definition graph_assignments (dotdata : string) : Z + list (string * value) :=
  match d2toptions dotdata with
  | Some o => plan the_parser (split o)
  | None => inr []
  end.

(** The body of the [try]: one conversion, a second one under
    [autosize], then the output file or, on the command line,
    [print]. *)
Definition convert_and_write (run_as_module : bool) (c : conv)
    (dotdata : string) (options : gmap string value) : M string :=
  s <- lift (conv_convert c dotdata).1;;
  let c := (conv_convert c dotdata).2 in
  log DEBUG "Output:";;;
  autosize <- attr options "autosize";;
  s <- (if truthy autosize then
          s' <- lift (conv_convert (conv_set_dopreproc_false c) s).1;;
          log DEBUG "Output after preprocessing:";;;
          ret s'
        else ret s);;
  outputfile <- attr options "outputfile";;
  (if truthy outputfile then
     o <- as_path outputfile;;
     write_file o s
   else if run_as_module then ret tt else print s);;;
  ret s.

(** The handlers of the [try]. *)
Definition on_error (run_as_module : bool) (options : gmap string value)
    (e : exn) : M string :=
  match e with
  | ParseException line column msg =>
      log ERROR ("Parse error:" +:+ line);;;
      debug <- attr options "debug";;
      (if truthy debug then log ERROR "Failed to parse graph" else ret tt);;;
      if run_as_module then raise e
      else log ERROR "Failed to parse the input data. Is it a valid dot file?";;;
           ret EmptyString
  | SystemExit _ =>
      if run_as_module then raise e else ret EmptyString
  | _ =>
      log ERROR "Failed to process input";;;
      if run_as_module then raise e else ret EmptyString
  end.

(** [main(run_as_module, dotdata, options)] up to
    [options.format = output_format], in three steps. First the options:
    those of the command line unless [main] runs as a module, the tests,
    the start of the log. *)
Definition start (run_as_module : bool) (options : gmap string value)
    : M (gmap string value) :=
  options <- (if run_as_module then ret options
              else argv <- get sys_argv;;
                   lift (parse_args the_parser (tail argv) ∅));;
  runtests <- attr options "runtests";;
  if truthy runtests then
    log WARNING "running tests";;; sys_exit 0
  else
    debug <- attr options "debug";;
    log INFO "------- Start of run -------";;;
    log INFO "Dot2tex version 2.12.dev";;;
    log INFO "System information:";;;
    log INFO "dot2tex called with:";;;
    log INFO "Program started in";;;
    ret options.

(** Then the data: the lines of the input, those of the file of an
    [\input] line in their place, and the lines that are not blank put
    together. *)
Definition input_data (run_as_module : bool) (dotdata : string)
    (options : gmap string value) : M string :=
  dotdata <- (if run_as_module then ret (splitlines dotdata)
              else read_input options);;
  dotdata <- follow_input run_as_module dotdata;;
  log DEBUG "Input data:";;;
  ret (strip_blank_lines dotdata).

(** Then the cache and the options that the graph gives. The result is
    the data, the output format and the options that the converter is
    made for. *)
Definition resolve (run_as_module : bool) (dotdata : string)
    (options : gmap string value) : M (string * value * gmap string value) :=
  cache <- attr options "cache";;
  (if truthy cache && negb run_as_module
   then check_cache options dotdata else ret tt);;;
  let gfmt := graph_format dotdata in
  (match gfmt with
   | VStr f => log INFO ("Found outputformat attribute: " +:+ f)
   | _ => ret tt
   end);;;
  options <- merge_graph_options dotdata options;;
  format <- attr options "format";;
  let output_format := py_or (py_or format gfmt) (VStr DEFAULT_OUTPUT_FORMAT) in
  ret (dotdata, output_format, <["format" := output_format]> options).

Definition gather (run_as_module : bool) (dotdata : string)
    (options : gmap string value) : M (string * value * gmap string value) :=
  options <- start run_as_module options;;
  dotdata <- input_data run_as_module dotdata options;;
  resolve run_as_module dotdata options.

(** Second part: the converter of the format, the conversion, the end
    of the run. The result is [s] for a module and [None] on the command
    line. *)
Definition dispatch (run_as_module : bool) (dotdata : string)
    (output_format : value) (options : gmap string value)
    : M (option string) :=
  match select_converter output_format with
  | Some cls =>
      s <- try_except
             (convert_and_write run_as_module (conv_new cls options)
                                dotdata options)
             (on_error run_as_module options);;
      log INFO "------- End of run -------";;;
      ret (if run_as_module then Some s else None)
  | None =>
      log ERROR ("Unknown output format " +:+ show output_format);;;
      sys_exit 1
  end.

Definition main (run_as_module : bool) (dotdata : string)
    (options : gmap string value) : M (option string) :=
  prepared <- gather run_as_module dotdata options;;
  dispatch run_as_module prepared.1.1 prepared.1.2 prepared.2.

(** [convert_graph(dotsource, **kwargs)]. *)
(** The name space of [parser.parse_args([])]: every default, and the
    positional left at its default. *)
Definition default_options : gmap string value :=
  assign (fill_defaults the_parser ∅) [("inputfile", VNone)].

Definition rename_preproc (kwargs : gmap string value) : gmap string value :=
  match kwargs !! "preproc" with
  | Some v =>
      if truthy v then delete "preproc" (<["texpreproc" := v]> kwargs)
      else kwargs
  | None => kwargs
  end.

Definition convert_graph (dotsource : string) (kwargs : gmap string value)
    : M (option string) :=
  options <- lift (parse_args the_parser [] ∅);;
  main true dotsource (rename_preproc kwargs ∪ options).

End Main.

(** *** What the result of a run depends on *)

(** The result of [m] is the same in all worlds. *)
Definition pure_result {A} (m : M A) : Prop :=
  forall w w', (m w).1 = (m w').1.

(** The result of [m] is the same in worlds related by [R]. *)
Definition determined (R : world -> world -> Prop) {A} (m : M A) : Prop :=
  forall w w', R w w' -> (m w).1 = (m w').1.

(** [m] takes worlds related by [R] to worlds related by [R]. *)
Definition keeps (R : world -> world -> Prop) {A} (m : M A) : Prop :=
  forall w w', R w w' -> R (m w).2 (m w').2.

(** Under the name that the [\input] line of [src] gives, the two worlds
    have files of the same content, or both none. *)
Definition same_input_file (src : string) (w w' : world) : Prop :=
  forall m, search input_re src = Some m ->
            content <$> files w !! group1 m = content <$> files w' !! group1 m.

End Dot2tex.

(** ** The edges of the emitters *)

Module Emitter.
Import Py.

(** Modelled from the spec: the dialect emitters ([pgfformat],
    [pstricksformat]) are not among the sources. Section 4.3: with the
    straight-edges override every edge path is a straight line between
    its end points, whatever curve the layout engine computed; without it
    the path is the curve of the control points. *)
Definition point : Type := Z * Z.

Inductive edge_path :=
| StraightLine (a b : point)
| Curve (control : list point).

Definition emit_edge (options : gmap string value) (first : point)
    (others : list point) : edge_path :=
  if match options !! "straightedges" with
     | Some v => truthy v
     | None => false
     end
  then StraightLine first (List.last others first)
  else Curve (first :: others).

End Emitter.

(** ** A small converter, for the examples

    It accepts data that starts with [graph] or [digraph] and puts a
    comment line before it; other data is a parse error, as with the
    parser of the dot language. *)

Module Sample.
Import Text Py Dot2tex.

Definition lf : string := String newline EmptyString.

Definition sample_new (cls : converter) (options : gmap string value) : unit := tt.

Definition sample_convert (c : unit) (dotdata : string) : outcome string * unit :=
  if String.prefix "digraph" dotdata || String.prefix "graph" dotdata
  then (Ok ("% dot2tex" +:+ lf +:+ dotdata), c)
  else (Raise (ParseException dotdata 1 "Expected graph"), c).

Abbreviation sample_main :=
  (main "utf8" "pgf" unit sample_new sample_convert id
        (fun s => s) (fun _ => None) (fun _ => EmptyString)).

Abbreviation sample_convert_graph :=
  (convert_graph "utf8" "pgf" unit sample_new sample_convert id
                 (fun s => s) (fun _ => None) (fun _ => EmptyString)).

Abbreviation sample_gather :=
  (gather "utf8" "pgf" (fun s => s) (fun _ => None) (fun _ => EmptyString)).

Definition empty_world : world := World ∅ ["dot2tex"] EmptyString 0 [] [].

Definition world_with (name text : string) : world :=
  World {[ name := File text 0 ]} ["dot2tex"] EmptyString 0 [] [].

End Sample.

(** ** The parser of drawing strings *)

Module Xdot.
Import Text.

(** Modelled from the spec: the parser of drawing strings is not among the
    sources. Section 4.1: the string is a sequence of single-letter
    opcodes, each followed by the arguments that the opcode declares,
    which are numbers, length-prefixed strings, or a count [n] and then
    [n] pairs of coordinates; an unknown opcode is skipped with a
    warning; a stream that ends inside an operation, or a string whose
    declared length is more than what remains, is the error
    [MalformedDrawingString]. Which opcode declares what is not said, so
    it is the parameter [signature]. Numbers are kept as they are
    written. *)

Inductive argkind := KNum | KStr | KPoints.

Inductive arg :=
| Num (n : string)
| Str (s : string)
| Points (ps : list (string * string)).

Record operation := Op { opcode : ascii; args : list arg }.

Inductive error := MalformedDrawingString.

Definition result (A : Type) : Type := error + A.

(** The text up to the next white space, and the rest. *)
Fixpoint token (s : string) : string * string :=
  match s with
  | EmptyString => (EmptyString, EmptyString)
  | String c s' =>
      if is_space c then (EmptyString, s)
      else let '(t, r) := token s' in (String c t, r)
  end.

Definition number_char (c : ascii) : bool :=
  let n := code c in
  (N.leb 48 n && N.leb n 57) || N.eqb n 43 || N.eqb n 45 || N.eqb n 46
  || N.eqb n 69 || N.eqb n 101.

Fixpoint number_chars (s : string) : bool :=
  match s with
  | EmptyString => true
  | String c s' => number_char c && number_chars s'
  end.

(** A number: digits, sign, point and exponent, at least one of them. *)
Definition is_number (t : string) : bool :=
  negb (String.eqb t EmptyString) && number_chars t.

Definition print_nat (n : nat) : string := NilZero.string_of_uint (Nat.to_uint n).

Definition parse_nat (t : string) : option nat :=
  Nat.of_uint <$> NilZero.uint_of_string t.

Definition read_num (s : string) : result (string * string) :=
  let '(t, r) := token (lstrip s) in
  if is_number t then inr (t, r) else inl MalformedDrawingString.

Definition read_count (s : string) : result (nat * string) :=
  let '(t, r) := token (lstrip s) in
  match parse_nat t with
  | Some n => inr (n, r)
  | None => inl MalformedDrawingString
  end.

(** The next [n] characters, if there are as many. *)
Fixpoint take_chars (n : nat) (s : string) : option (string * string) :=
  match n with
  | O => Some (EmptyString, s)
  | S n' =>
      match s with
      | EmptyString => None
      | String c s' =>
          (fun tr : string * string => (String c tr.1, tr.2)) <$> take_chars n' s'
      end
  end.

(** A string: its length, a dash, and as many characters. *)
Definition read_str (s : string) : result (string * string) :=
  match read_count s with
  | inl e => inl e
  | inr (n, r) =>
      match lstrip r with
      | String "-" r' =>
          match take_chars n r' with
          | Some tr => inr tr
          | None => inl MalformedDrawingString
          end
      | _ => inl MalformedDrawingString
      end
  end.

Fixpoint read_points (n : nat) (s : string)
    : result (list (string * string) * string) :=
  match n with
  | O => inr ([], s)
  | S n' =>
      match read_num s with
      | inl e => inl e
      | inr (x, r) =>
          match read_num r with
          | inl e => inl e
          | inr (y, r') =>
              match read_points n' r' with
              | inl e => inl e
              | inr (ps, r'') => inr ((x, y) :: ps, r'')
              end
          end
      end
  end.

Definition read_arg (k : argkind) (s : string) : result (arg * string) :=
  match k with
  | KNum =>
      match read_num s with
      | inl e => inl e
      | inr (t, r) => inr (Num t, r)
      end
  | KStr =>
      match read_str s with
      | inl e => inl e
      | inr (t, r) => inr (Str t, r)
      end
  | KPoints =>
      match read_count s with
      | inl e => inl e
      | inr (n, r) =>
          match read_points n r with
          | inl e => inl e
          | inr (ps, r') => inr (Points ps, r')
          end
      end
  end.

Fixpoint read_args (ks : list argkind) (s : string) : result (list arg * string) :=
  match ks with
  | [] => inr ([], s)
  | k :: ks' =>
      match read_arg k s with
      | inl e => inl e
      | inr (a, r) =>
          match read_args ks' r with
          | inl e => inl e
          | inr (l, r') => inr (a :: l, r')
          end
      end
  end.

(** What follows a token: nothing, or white space. A text without white
    space. *)
Definition boundary (r : string) : Prop :=
  match r with
  | EmptyString => True
  | String c _ => is_space c = true
  end.

Fixpoint no_space (s : string) : bool :=
  match s with
  | EmptyString => true
  | String c s' => negb (is_space c) && no_space s'
  end.

Section Parser.

Variable signature : ascii -> option (list argkind).

(** The operations of the string and the unknown opcodes that were
    skipped. Each turn reads at least one character, so a fuel above the
    length of the string is never used up. *)
Fixpoint parse_ops (fuel : nat) (s : string)
    : result (list operation * list ascii) :=
  match fuel with
  | O => inl MalformedDrawingString
  | S fuel' =>
      match lstrip s with
      | EmptyString => inr ([], [])
      | String c r =>
          match signature c with
          | None =>
              match parse_ops fuel' r with
              | inl e => inl e
              | inr (ops, skipped) => inr (ops, c :: skipped)
              end
          | Some ks =>
              match read_args ks r with
              | inl e => inl e
              | inr (l, r') =>
                  match parse_ops fuel' r' with
                  | inl e => inl e
                  | inr (ops, skipped) => inr (Op c l :: ops, skipped)
                  end
              end
          end
      end
  end.

Definition parse_drawstring (s : string) : result (list operation * list ascii) :=
  parse_ops (S (String.length s)) s.

(** The arguments are of the kinds that the opcode declares, as many as
    it declares. *)
Inductive has_kind : arg -> argkind -> Prop :=
| num_kind n : has_kind (Num n) KNum
| str_kind s : has_kind (Str s) KStr
| points_kind ps : has_kind (Points ps) KPoints.

Definition complete (op : operation) : Prop :=
  exists ks, signature (opcode op) = Some ks /\ Forall2 has_kind (args op) ks.

(** The encoding: every piece after a blank. *)
Definition blank : string := " ".

Definition enc_num (t : string) : string := blank +:+ t.

Fixpoint enc_points (ps : list (string * string)) : string :=
  match ps with
  | [] => EmptyString
  | (x, y) :: ps' => enc_num x +:+ enc_num y +:+ enc_points ps'
  end.

Definition enc_arg (a : arg) : string :=
  match a with
  | Num t => enc_num t
  | Str s => blank +:+ print_nat (String.length s) +:+ " -" +:+ s
  | Points ps => blank +:+ print_nat (List.length ps) +:+ enc_points ps
  end.

Fixpoint enc_args (l : list arg) : string :=
  match l with
  | [] => EmptyString
  | a :: l' => enc_arg a +:+ enc_args l'
  end.

Definition enc_op (op : operation) : string :=
  blank +:+ String (opcode op) (enc_args (args op)).

Fixpoint encode (ops : list operation) : string :=
  match ops with
  | [] => EmptyString
  | op :: ops' => enc_op op +:+ encode ops'
  end.

(** The numbers of the arguments are numbers. *)
Definition wf_arg (a : arg) : Prop :=
  match a with
  | Num t => is_number t = true
  | Str _ => True
  | Points ps => Forall (fun p => is_number p.1 = true /\ is_number p.2 = true) ps
  end.

Definition wf_op (op : operation) : Prop :=
  is_space (opcode op) = false /\ complete op /\ Forall wf_arg (args op).

End Parser.

(** The opcodes of the example in [dot2tex.py] and of the spec: a colour
    is a string, a font a size and a name, a text four numbers and a
    string, a spline a list of points, an ellipse four numbers. *)
Definition sample_signature (c : ascii) : option (list argkind) :=
  if Ascii.eqb c "c" then Some [KStr]
  else if Ascii.eqb c "F" then Some [KNum; KStr]
  else if Ascii.eqb c "T" then Some [KNum; KNum; KNum; KNum; KStr]
  else if Ascii.eqb c "b" then Some [KPoints]
  else if Ascii.eqb c "E" then Some [KNum; KNum; KNum; KNum]
  else None.

Definition sample_ops : list operation :=
  [Op "c" [Str "black"]; Op "F" [Num "14.000000"; Str "Times-Roman"];
   Op "T" [Num "99"; Num "159"; Num "0"; Num "44"; Str "a_1 test"]].

End Xdot.

(** ** Example inputs *)

Module Examples.
Import Text Py Dot2tex Sample.

Definition q : string := String dquote EmptyString.
Definition cr : string := String carriage_return EmptyString.

(** A graph that asks for TikZ and for straight edges. *)
Definition straight_graph : string :=
  "digraph G {" +:+ lf +:+
  "  d2toutputformat=tikz;" +:+ lf +:+
  "  d2toptions=" +:+ q +:+ "--straightedges" +:+ q +:+ ";" +:+ lf +:+
  "  a -> b;" +:+ lf +:+ "}" +:+ lf.

(** A graph with two lines of [d2toptions]. *)
Definition two_options_graph : string :=
  "digraph G {" +:+ lf +:+
  "  d2toptions=" +:+ q +:+ "--debug" +:+ q +:+ ";" +:+ lf +:+
  "  d2toptions=" +:+ q +:+ "--straightedges" +:+ q +:+ ";" +:+ lf +:+
  "  a -> b;" +:+ lf +:+ "}" +:+ lf.

(** A graph with a format that has no converter. *)
Definition unknown_format_graph : string :=
  "digraph G { d2toutputformat=foo; a -> b; }".

(** A text with an [\input] line and a second one. *)
Definition input_text : string :=
  "  \input{g.dot}" +:+ lf +:+ "\input{other.dot}" +:+ lf.

(** Lines that end with CR: the text, and the text with a blank line after
    the first line. *)
Definition cr_text : string := "x" +:+ cr +:+ "\input{f}".
Definition cr_text_blank : string := "x" +:+ cr +:+ " " +:+ lf +:+ "\input{f}".

Definition small_graph : string :=
  "digraph G {" +:+ lf +:+ "a -> b;  " +:+ lf +:+ "}" +:+ lf.
Definition small_graph_blank : string :=
  "digraph G {" +:+ lf +:+ "   " +:+ lf +:+ "a -> b;  " +:+ lf +:+ "}" +:+ lf.

End Examples.

(** * Properties *)

Import Text Re Py Argparse Dot2tex Examples.

(** ** The name space after [parse_args] *)

Section ParseArgs.

Implicit Types (ns : gmap string value) (asgs : list (string * value)).

Lemma assign_snoc ns asgs k v :
  assign ns (asgs ++ [(k, v)]) = <[k := v]> (assign ns asgs).
Proof. unfold assign. by rewrite foldl_app. Qed.

Lemma lookup_assign ns asgs k :
  assign ns asgs !! k =
  match last_assigned k asgs with Some v => Some v | None => ns !! k end.
Proof.
  unfold last_assigned.
  induction asgs as [|[k' v'] asgs IH] using rev_ind; [done|].
  rewrite assign_snoc, rev_app_distr. simpl.
  destruct (String.eqb_spec k' k) as [->|Hne]; simpl.
  - by rewrite lookup_insert_eq.
  - by rewrite lookup_insert_ne.
Qed.

Lemma fill_defaults_keeps p ns k v :
  ns !! k = Some v -> fill_defaults p ns !! k = Some v.
Proof.
  unfold fill_defaults. revert ns.
  induction p as [|a p IH]; intros ns Hk; simpl; [done|].
  apply IH. destruct (kind a); try done;
    destruct (ns !! dest a) eqn:Hd; try done;
    (destruct (decide (dest a = k)) as [<-|Hne];
     [congruence | by rewrite lookup_insert_ne]).
Qed.

Lemma assign_defined ns asgs k :
  is_Some (ns !! k) -> is_Some (assign ns asgs !! k).
Proof.
  intros Hk. rewrite lookup_assign. by destruct (last_assigned k asgs).
Qed.

(** [parse_args] never removes a name. *)
Lemma parse_args_defined p args ns ns' k :
  parse_args p args ns = Ok ns' -> is_Some (ns !! k) -> is_Some (ns' !! k).
Proof.
  unfold parse_args. destruct (plan p args) as [|asgs]; [done|].
  intros [= <-] [v Hv]. apply assign_defined.
  exists v. by apply fill_defaults_keeps.
Qed.

End ParseArgs.

(** ** [convert_graph]: the keyword [preproc] *)

Section Preproc.

Variables (enc fmt : string) (conv : Type).
Variable conv_new : converter -> gmap string value -> conv.
Variable conv_convert : conv -> string -> outcome string * conv.
Variable conv_off : conv -> conv.
Variable md5 : string -> string.
Variable unpickle : string -> option (gmap string string).
Variable pickle : gmap string string -> string.

Let run := convert_graph enc fmt conv conv_new conv_convert conv_off
                         md5 unpickle pickle.

Lemma rename_preproc_truthy (v : value) (kw : gmap string value) :
  truthy v = true -> kw !! "preproc" = None ->
  rename_preproc (<["preproc" := v]> kw) = <["texpreproc" := v]> kw.
Proof.
  intros Hv Hkw. unfold rename_preproc.
  rewrite lookup_insert_eq, Hv.
  rewrite insert_insert_ne by done. rewrite delete_insert_eq.
  by rewrite delete_id by (by rewrite lookup_insert_ne).
Qed.

Lemma rename_preproc_absent (kw : gmap string value) :
  kw !! "preproc" = None -> rename_preproc kw = kw.
Proof. intros Hkw. unfold rename_preproc. by rewrite Hkw. Qed.


End Preproc.



(** ** The output formats *)

Lemma select_converter_cases (f : string) :
  select_converter (VStr f) =
    if String.eqb f "pstricks" then Some Dot2PSTricksConv
    else if String.eqb f "pst" then Some Dot2PSTricksConv
    else if String.eqb f "psn" then Some Dot2PSTricksNConv
    else if String.eqb f "pgf" then Some Dot2PGFConv
    else if String.eqb f "tikz" then Some Dot2TikZConv
    else if String.eqb f "positions" then Some PositionsDotConv
    else None.
Proof. unfold select_converter. by destruct (String.eqb f "pstricks"). Qed.

Lemma select_converter_known (v : value) :
  is_Some (select_converter v) <-> exists f, v = VStr f /\ f ∈ formats_of_main.
Proof.
  split.
  - destruct v as [| | |f|]; try by intros [? [=]].
    rewrite select_converter_cases. intros H. exists f. split; [done|].
    unfold formats_of_main.
    destruct (String.eqb_spec f "pstricks") as [Heq|_]; [rewrite Heq; by repeat constructor|].
    destruct (String.eqb_spec f "pst") as [Heq|_]; [rewrite Heq; by repeat constructor|].
    destruct (String.eqb_spec f "psn") as [Heq|_]; [rewrite Heq; by repeat constructor|].
    destruct (String.eqb_spec f "pgf") as [Heq|_]; [rewrite Heq; by repeat constructor|].
    destruct (String.eqb_spec f "tikz") as [Heq|_]; [rewrite Heq; by repeat constructor|].
    destruct (String.eqb_spec f "positions") as [Heq|_]; [rewrite Heq; by repeat constructor|].
    by destruct H.
  - intros (f & -> & Hf). unfold formats_of_main in Hf.
    repeat (apply elem_of_cons in Hf as [->|Hf]; [by eexists|]).
    by apply elem_of_nil in Hf.
Qed.

Lemma plan_format_option (enc f : string) :
  plan (create_options_parser enc) ["-f"; f] =
    if existsb (String.eqb f) formats_of_command_line
    then inr [("format", VStr f); ("inputfile", VNone)]
    else inl 2%Z.
Proof.
  destruct (existsb (String.eqb f) formats_of_command_line) eqn:Hf.
  - simpl in Hf.
    destruct (String.eqb_spec f "pstricks") as [Heq|_]; [rewrite Heq; by vm_compute|].
    destruct (String.eqb_spec f "pgf") as [Heq|_]; [rewrite Heq; by vm_compute|].
    destruct (String.eqb_spec f "pst") as [Heq|_]; [rewrite Heq; by vm_compute|].
    destruct (String.eqb_spec f "tikz") as [Heq|_]; [rewrite Heq; by vm_compute|].
    destruct (String.eqb_spec f "psn") as [Heq|_]; [rewrite Heq; by vm_compute|].
    done.
  - unfold plan.
    change (classify (create_options_parser enc) ["-f"; f])
      with (t ← parse_optional (create_options_parser enc) "-f";
            ts ← classify (create_options_parser enc) [f];
            Some (t :: ts)).
    assert (Hopt : exists a, parse_optional (create_options_parser enc) "-f"
                             = Some (TOpt (Some a) "-f" None)
                             /\ kind a = Store /\ dest a = "format"
                             /\ choices a = Some formats_of_command_line)
      by (eexists; split; [by vm_compute|done]).
    destruct Hopt as (a & -> & Hkind & Hdest & Hch).
    change (classify (create_options_parser enc) [f])
      with (if String.eqb f "--" then Some [TDashes]
            else t ← parse_optional (create_options_parser enc) f;
                 ts ← Some []; Some (t :: ts)).
    destruct (String.eqb f "--") eqn:Hdd; simpl.
    { unfold consume_optional, following. by rewrite Hkind. }
    destruct (parse_optional (create_options_parser enc) f) as [t|]; simpl; [|done].
    unfold consume_optional, following. rewrite Hkind.
    destruct t; try done.
    unfold take_actions, take_action. simpl. rewrite Hkind, Hdd, Hch, Hf. done.
Qed.

(** C3, as amended. [main] has a converter for exactly six format names:
    [pstricks] and [pst] (both the PSTricks converter), [psn], [pgf],
    [tikz] and [positions]; any other value of the format is unknown. The
    option [-f] of the command line accepts exactly [pstricks], [pgf],
    [pst], [tikz] and [psn], and stores the name as the format. *)
Theorem format_selectors (enc : string) :
  (forall v, is_Some (select_converter v)
             <-> exists f, v = VStr f /\ f ∈ formats_of_main)
  /\ select_converter (VStr "pstricks") = Some Dot2PSTricksConv
  /\ select_converter (VStr "pst") = Some Dot2PSTricksConv
  /\ select_converter (VStr "psn") = Some Dot2PSTricksNConv
  /\ select_converter (VStr "pgf") = Some Dot2PGFConv
  /\ select_converter (VStr "tikz") = Some Dot2TikZConv
  /\ select_converter (VStr "positions") = Some PositionsDotConv
  /\ (forall f, f ∈ formats_of_command_line ->
        plan (create_options_parser enc) ["-f"; f]
        = inr [("format", VStr f); ("inputfile", VNone)])
  /\ (forall f, f ∉ formats_of_command_line ->
        plan (create_options_parser enc) ["-f"; f] = inl 2%Z).
Proof.
  split; [exact select_converter_known|].
  do 6 (split; [reflexivity|]).
  split; intros f Hf; rewrite plan_format_option.
  - replace (existsb (String.eqb f) formats_of_command_line) with true; [done|].
    symmetry. apply existsb_exists. exists f.
    split; [by apply list_elem_of_In | apply String.eqb_refl].
  - destruct (existsb (String.eqb f) formats_of_command_line) eqn:He; [|done].
    apply existsb_exists in He as (x & Hx & Heq).
    apply String.eqb_eq in Heq as ->. by apply list_elem_of_In in Hx.
Qed.

(** C3 as stated fails: [pst], which is not one of the five names, has a
    converter, and [-f positions] is an error of the command line. *)
Lemma format_selectors_not_five :
  ~ (forall f, is_Some (select_converter (VStr f))
               <-> f ∈ ["pstricks"; "psn"; "pgf"; "tikz"; "positions"])
  /\ parse_args (create_options_parser "utf8") ["-f"; "positions"] ∅
     = Raise (SystemExit 2).
Proof.
  split; [|by vm_compute].
  intros H. destruct (H "pst") as [H1 _].
  assert (Hin : "pst" ∈ ["pstricks"; "psn"; "pgf"; "tikz"; "positions"])
    by (apply H1; by eexists).
  repeat (apply elem_of_cons in Hin as [[=]|Hin]).
  by apply elem_of_nil in Hin.
Qed.

(** ** Lines and blank lines *)




Lemma app_cons c (a b : string) : String c a +:+ b = String c (a +:+ b).
Proof. reflexivity. Qed.

Lemma app_nil_l (a : string) : EmptyString +:+ a = a.
Proof. reflexivity. Qed.

Lemma app_nil_r (a : string) : a +:+ EmptyString = a.
Proof. induction a as [|c a IH]; [done|]. by rewrite app_cons, IH. Qed.

Lemma str_app_assoc (a b c : string) : (a +:+ b) +:+ c = a +:+ (b +:+ c).
Proof. induction a as [|x a IH]; [done|]. by rewrite !app_cons, IH. Qed.

Lemma snoc_app (cur : string) c (s : string) :
  snoc cur c +:+ s = cur +:+ String c s.
Proof. unfold snoc. by rewrite str_app_assoc. Qed.

Lemma join_cons (l : string) (ls : list string) : join (l :: ls) = l +:+ join ls.
Proof. reflexivity. Qed.

Lemma join_app (ls1 ls2 : list string) : join (ls1 ++ ls2) = join ls1 +:+ join ls2.
Proof.
  induction ls1 as [|l ls1 IH]; [done|].
  rewrite <- app_comm_cons, !join_cons, IH. by rewrite str_app_assoc.
Qed.

Lemma join_splitlines_from (cur s : string) :
  join (splitlines_from cur s) = cur +:+ s.
Proof.
  revert cur. induction s as [|c s IH]; intros cur; simpl.
  - rewrite app_nil_r. destruct (String.eqb_spec cur EmptyString) as [->|]; [done|].
    by rewrite join_cons, app_nil_r.
  - destruct (is_linebreak c); [|by rewrite IH, snoc_app].
    destruct (N.eqb (code c) 13).
    + destruct s as [|d s'].
      * by rewrite join_cons, app_nil_r.
      * destruct (is_nl d) eqn:Hd.
        -- rewrite join_cons.
           assert (H := IH EmptyString). simpl in H.
           unfold is_nl in Hd. apply N.eqb_eq in Hd.
           unfold is_linebreak in H. rewrite Hd in H. simpl in H.
           unfold snoc in H.
           rewrite !app_nil_l, app_cons in H. injection H as H.
           rewrite app_nil_l in H. rewrite H. by rewrite !snoc_app.
        -- by rewrite join_cons, IH, snoc_app.
    + by rewrite join_cons, IH, snoc_app.
Qed.

Lemma join_splitlines (s : string) : join (splitlines s) = s.
Proof. apply join_splitlines_from. Qed.

Lemma strip_blank_lines_insert (pre post : list string) (b : string) :
  all_space b = true ->
  strip_blank_lines (pre ++ b :: post) = strip_blank_lines (pre ++ post).
Proof.
  intros Hb. unfold strip_blank_lines.
  rewrite !List.filter_app. simpl. unfold strip_nonempty at 2. by rewrite Hb.
Qed.

(** ** The pattern of [\input] *)


Lemma match_here_input_re bol s :
  match_here input_re bol s =
    if bol then rep true 0 CSpace false (match_here input_tail) bol EmptyString 0 s
    else None.
Proof. reflexivity. Qed.

Lemma input_tail_not_backslash b c s :
  c <> "\"%char -> match_here input_tail b (String c s) = None.
Proof.
  intros Hc.
  change (match_here input_tail b (String c s))
    with (if Ascii.eqb "\" c
          then match_here (tail input_tail) (is_nl c) s else None).
  destruct (Ascii.eqb_spec "\" c); congruence.
Qed.

Lemma input_tail_space b c s :
  is_space c = true -> match_here input_tail b (String c s) = None.
Proof. intros Hc. apply input_tail_not_backslash. by intros ->. Qed.

Lemma input_tail_empty b : match_here input_tail b EmptyString = None.
Proof. reflexivity. Qed.

Lemma input_tail_bol b b' s : match_here input_tail b s = match_here input_tail b' s.
Proof.
  destruct s as [|c s]; [done|]. reflexivity.
Qed.

Lemma orelse_None_r {A} (x : option A) : orelse x None = x.
Proof. by destruct x. Qed.

Lemma set_group_false seen (o : option found) :
  set_group false seen <$> o = o.
Proof. by destruct o. Qed.

Lemma lstrip_cons c s :
  lstrip (String c s) = if is_space c then lstrip s else String c s.
Proof. reflexivity. Qed.

Lemma rep_space_input b seen n s :
  rep true 0 CSpace false (match_here input_tail) b seen n s
  = match_here input_tail true (lstrip s).
Proof.
  revert b seen n. induction s as [|c s IH]; intros b seen n.
  - reflexivity.
  - rewrite lstrip_cons. cbn [rep in_class]. 
    destruct (is_space c) eqn:Hc.
    + rewrite IH. cbn [Nat.leb]. rewrite (input_tail_space _ _ _ Hc).
      apply orelse_None_r.
    + cbn [Nat.leb]. rewrite set_group_false. apply input_tail_bol.
Qed.

Lemma match_here_input bol s :
  match_here input_re bol s =
    if bol then match_here input_tail true (lstrip s) else None.
Proof. rewrite match_here_input_re. destruct bol; [|done]. apply rep_space_input. Qed.


Lemma rep_name_first_line x y y' b seen n :
  no_nl x = true ->
  group1 <$> rep false 1 CDot true (match_here [AChr "}"]) b seen n
               (x +:+ String newline y)
  = group1 <$> rep false 1 CDot true (match_here [AChr "}"]) b seen n
                 (x +:+ String newline y').
Proof.
  revert b seen n. induction x as [|c x IH]; intros b seen n Hx.
  - rewrite !app_nil_l. cbn [rep in_class is_dot]. 
    change (is_nl newline) with true. cbn [negb].
    destruct (Nat.leb 1 n); reflexivity.
  - rewrite !app_cons. simpl in Hx. apply andb_prop in Hx as [Hc Hx].
    cbn [rep in_class]. unfold is_dot at 1 2. rewrite Hc.
    change (match_here [AChr "}"] b (String c (x +:+ String newline y)))
      with (if Ascii.eqb "}" c
            then Some (Found EmptyString (x +:+ String newline y) (is_nl c))
            else None).
    change (match_here [AChr "}"] b (String c (x +:+ String newline y')))
      with (if Ascii.eqb "}" c
            then Some (Found EmptyString (x +:+ String newline y') (is_nl c))
            else None).
    destruct (Nat.leb 1 n), (Ascii.eqb "}" c); cbn [orelse fmap option_fmap option_map];
      try reflexivity; by apply IH.
Qed.

Lemma lit_first_line (l : list ascii) x y y' b :
  Forall (fun a => is_nl a = false) l -> no_nl x = true ->
  group1 <$> match_here ((AChr <$> l) ++ [ARep false 1 CDot true; AChr "}"])%list b
               (x +:+ String newline y)
  = group1 <$> match_here ((AChr <$> l) ++ [ARep false 1 CDot true; AChr "}"])%list b
                 (x +:+ String newline y').
Proof.
  intros Hl. revert x b. induction Hl as [|a l Ha Hl IH]; intros x b Hx.
  - by apply (rep_name_first_line x y y' b EmptyString 0).
  - change (match_here ((AChr <$> a :: l) ++ ?r)%list b ?s)
      with (chr a (match_here ((AChr <$> l) ++ r)%list) s).
    destruct x as [|c x].
    + rewrite !app_nil_l. unfold chr.
      destruct (Ascii.eqb_spec a newline) as [->|]; [done|reflexivity].
    + rewrite !app_cons. simpl in Hx. apply andb_prop in Hx as [_ Hx].
      unfold chr. destruct (Ascii.eqb a c); [by apply IH|done].
Qed.

Lemma input_tail_first_line x y y' b :
  no_nl x = true ->
  group1 <$> match_here input_tail b (x +:+ String newline y)
  = group1 <$> match_here input_tail b (x +:+ String newline y').
Proof.
  apply (lit_first_line (list_ascii_of_string "\input{")).
  repeat constructor.
Qed.


Lemma ends_nl_cons c s :
  ends_nl (String c s) = match s with EmptyString => is_nl c | _ => ends_nl s end.
Proof. by destruct s. Qed.

Lemma lstrip_app_space (b y : string) :
  all_space b = true -> lstrip (b +:+ y) = lstrip y.
Proof.
  induction b as [|c b IH]; [done|]. cbn [all_space]. intros [Hc Hb]%andb_prop.
  rewrite app_cons, lstrip_cons, Hc. auto.
Qed.

Lemma lstrip_app_nonspace (x z : string) :
  all_space x = false -> lstrip (x +:+ z) = lstrip x +:+ z.
Proof.
  induction x as [|c x IH]; [done|]. cbn [all_space]. intros Hx.
  rewrite app_cons, !lstrip_cons. destruct (is_space c); [auto|done].
Qed.

Lemma ends_nl_lstrip (x : string) :
  ends_nl x = true -> all_space x = false -> ends_nl (lstrip x) = true.
Proof.
  induction x as [|c x IH]; [done|].
  rewrite ends_nl_cons, lstrip_cons. cbn [all_space].
  destruct (is_space c) eqn:Hc; cbn [andb].
  - destruct x; [done|]. auto.
  - intros H _. by rewrite ends_nl_cons.
Qed.

Lemma ends_nl_split (x : string) :
  ends_nl x = true ->
  exists x1 x2, x = x1 +:+ String newline x2 /\ no_nl x1 = true.
Proof.
  induction x as [|c x IH]; [done|]. rewrite ends_nl_cons. intros H.
  destruct (is_nl c) eqn:Hc.
  - exists EmptyString, x. split; [|done].
    unfold is_nl in Hc. apply N.eqb_eq in Hc.
    rewrite app_nil_l. f_equal.
    rewrite <- (ascii_N_embedding c). unfold code in Hc. by rewrite Hc.
  - destruct x as [|d x]; [done|].
    destruct (IH H) as (x1 & x2 & -> & Hx1).
    exists (String c x1), x2. split; [done|]. simpl. by rewrite Hc, Hx1.
Qed.

Local Abbreviation K := (match_here input_tail true).

Lemma input_tail_blank_line (x b y : string) :
  ends_nl x = true -> all_space b = true ->
  group1 <$> K (lstrip (x +:+ b +:+ y)) = group1 <$> K (lstrip (x +:+ y)).
Proof.
  intros Hx Hb. destruct (all_space x) eqn:Hsp.
  - by rewrite !lstrip_app_space by done.
  - rewrite !lstrip_app_nonspace by done.
    destruct (ends_nl_split (lstrip x)) as (x1 & x2 & -> & Hx1);
      [by apply ends_nl_lstrip|].
    rewrite !str_app_assoc, !app_cons. by apply input_tail_first_line.
Qed.

Lemma search_from_cons re bol c s :
  search_from re bol (String c s) =
    match match_here re bol (String c s) with
    | Some r => Some r
    | None => search_from re (is_nl c) s
    end.
Proof. reflexivity. Qed.

Lemma search_from_skip_blank (b y : string) bol :
  all_space b = true -> ends_nl b = true -> K (lstrip y) = None ->
  search_from input_re bol (b +:+ y) = search_from input_re true y.
Proof.
  revert bol. induction b as [|c b IH]; intros bol Hb He Hy; [done|].
  rewrite app_cons, search_from_cons, match_here_input.
  rewrite <- app_cons, lstrip_app_space, Hy by done.
  simpl in Hb. apply andb_prop in Hb as [_ Hb]. rewrite ends_nl_cons in He.
  destruct bol; (destruct b as [|d b]; [by rewrite He | by apply IH]).
Qed.


Lemma search_from_blank_line (x b y : string) bol :
  at_line_start bol x -> all_space b = true -> ends_nl b = true ->
  group1 <$> search_from input_re bol (x +:+ b +:+ y)
  = group1 <$> search_from input_re bol (x +:+ y).
Proof.
  intros Hx Hb He. revert bol Hx. induction x as [|c x IH]; intros bol Hx.
  - simpl in Hx. subst bol. rewrite !app_nil_l.
    destruct (K (lstrip y)) as [r|] eqn:Hy.
    + destruct b as [|d b]; [done|].
      rewrite app_cons, search_from_cons, match_here_input.
      rewrite <- app_cons, lstrip_app_space, Hy by done.
      destruct y as [|e y]; [done|].
      by rewrite search_from_cons, match_here_input, Hy.
    + by rewrite search_from_skip_blank.
  - rewrite !app_cons, !search_from_cons, !match_here_input.
    assert (Hnext : group1 <$> search_from input_re (is_nl c) (x +:+ b +:+ y)
                    = group1 <$> search_from input_re (is_nl c) (x +:+ y)).
    { apply IH. simpl in Hx. destruct x; [done|]. by rewrite ends_nl_cons in Hx. }
    destruct bol; [|done].
    rewrite <- !app_cons.
    pose proof (input_tail_blank_line (String c x) b y Hx Hb) as HK.
    destruct (K (lstrip (String c x +:+ b +:+ y))), (K (lstrip (String c x +:+ y)));
      simpl in HK |- *; try done.
Qed.

(** ** Reasoning in the monad of [main] *)

Lemma bind_Ok {A B} (m : M A) (k : A -> M B) w b w' :
  bind m k w = (Ok b, w') ->
  exists a w1, m w = (Ok a, w1) /\ k a w1 = (Ok b, w').
Proof.
  unfold bind. destruct (m w) as [[a|e] w1]; [eauto|done].
Qed.

Lemma bind_eq_Ok {A B} (m : M A) (k : A -> M B) w a w1 :
  m w = (Ok a, w1) -> bind m k w = k a w1.
Proof. unfold bind. by intros ->. Qed.

Lemma bind_eq_Raise {A B} (m : M A) (k : A -> M B) w e w1 :
  m w = (Raise e, w1) -> bind m k w = (Raise e, w1).
Proof. unfold bind. by intros ->. Qed.

Lemma attr_Ok (o : gmap string value) k w v w' :
  attr o k w = (Ok v, w') -> o !! k = Some v /\ w' = w.
Proof.
  unfold attr. destruct (o !! k); [|done]. by intros [= -> ->].
Qed.

Lemma attr_eq (o : gmap string value) k v w :
  o !! k = Some v -> attr o k w = (Ok v, w).
Proof. unfold attr. by intros ->. Qed.

Ltac mstep H :=
  let a := fresh "a" in
  let w := fresh "w" in
  let Ha := fresh "Hstep" in
  apply bind_Ok in H as (a & w & Ha & H).

Section MainFacts.

Variables (enc fmt0 : string) (conv : Type).
Variable conv_new : converter -> gmap string value -> conv.
Variable conv_convert : conv -> string -> outcome string * conv.
Variable conv_off : conv -> conv.
Variable md5 : string -> string.
Variable unpickle : string -> option (gmap string string).
Variable pickle : gmap string string -> string.

Local Abbreviation gather' := (gather enc fmt0 md5 unpickle pickle).
Local Abbreviation resolve' := (resolve enc fmt0 md5 unpickle pickle).
Local Abbreviation dispatch' := (dispatch conv conv_new conv_convert conv_off).
Local Abbreviation main' := (main enc fmt0 conv conv_new conv_convert conv_off
                        md5 unpickle pickle).
Local Abbreviation convert_graph' := (convert_graph enc fmt0 conv conv_new conv_convert
                                          conv_off md5 unpickle pickle).

Lemma merge_graph_options_defined d (o o' : gmap string value) w w' k :
  merge_graph_options enc d o w = (Ok o', w') ->
  is_Some (o !! k) -> is_Some (o' !! k).
Proof.
  unfold merge_graph_options.
  destruct (d2toptions d) as [x|].
  - intros H. mstep H. unfold lift in H.
    destruct (parse_args _ _ _) eqn:Hp; [|done].
    injection H as <- _. by eapply parse_args_defined.
  - by intros [= <- _].
Qed.

(** When the first part of [main] is done, the options have the
    attributes that the second part reads. *)
Lemma start_Ok b opts w o w1 :
  start enc b opts w = (Ok o, w1) -> is_Some (o !! "debug").
Proof.
  intros H. unfold start in H.
  mstep H. mstep H. destruct (truthy a0).
  { mstep H. done. }
  mstep H. apply attr_Ok in Hstep1 as [Hdebug _].
  do 5 mstep H. injection H as <- _. eauto.
Qed.

Lemma resolve_Ok b d0 opts w d fmt o w1 :
  resolve' b d0 opts w = (Ok (d, fmt, o), w1) ->
  d = d0 /\ o !! "format" = Some fmt
  /\ forall k, is_Some (opts !! k) -> is_Some (o !! k).
Proof.
  intros H. unfold resolve in H.
  do 5 mstep H. injection H as <- <- <- <-.
  split; [done|]. split; [by rewrite lookup_insert_eq|].
  intros k Hk. destruct (decide (k = "format")) as [->|Hne].
  - rewrite lookup_insert_eq. eauto.
  - rewrite lookup_insert_ne by done.
    eapply merge_graph_options_defined; eauto.
Qed.

(** When the first part of [main] is done, the options have the
    attributes that the second part reads. *)
Lemma gather_Ok b src opts w d fmt o w1 :
  gather' b src opts w = (Ok (d, fmt, o), w1) ->
  is_Some (o !! "debug") /\ o !! "format" = Some fmt.
Proof.
  intros H. unfold gather in H. mstep H. mstep H.
  apply start_Ok in Hstep.
  apply resolve_Ok in H as (_ & Hf & Hk). auto.
Qed.

Lemma main_eq b src opts w d fmt o w1 :
  gather' b src opts w = (Ok (d, fmt, o), w1) ->
  main' b src opts w = dispatch' b d fmt o w1.
Proof. intros H. unfold main. by rewrite (bind_eq_Ok _ _ _ _ _ H). Qed.

(** An output format without converter: the error is logged and the run
    ends with [sys.exit(1)]. *)
Lemma dispatch_unknown b d fmt o w :
  select_converter fmt = None ->
  dispatch' b d fmt o w
  = (Raise (SystemExit 1),
     World (files w) (sys_argv w) (stdin w) (clock w)
           ((ERROR, "Unknown output format " +:+ show fmt) :: logged w)
           (printed w)).
Proof. intros H. unfold dispatch. by rewrite H. Qed.

(** As a module, whatever the first conversion raises is raised again. *)
Lemma dispatch_module_reraises d fmt o w cls e :
  select_converter fmt = Some cls ->
  is_Some (o !! "debug") ->
  (conv_convert (conv_new cls o) d).1 = Raise e ->
  exists w', dispatch' true d fmt o w = (Raise e, w').
Proof.
  intros Hcls [dbg Hdbg] Hraise. unfold dispatch. rewrite Hcls.
  unfold bind at 1, try_except, convert_and_write, bind at 1, lift.
  rewrite Hraise. unfold on_error.
  destruct e; unfold bind, log, raise; rewrite ?(attr_eq _ _ _ _ Hdbg);
    try destruct (truthy dbg); eauto.
Qed.

(** On the command line, nothing that the conversion raises leaves
    [main]. *)
Lemma dispatch_command_line_returns d fmt o w cls :
  select_converter fmt = Some cls ->
  is_Some (o !! "debug") ->
  exists w', dispatch' false d fmt o w = (Ok None, w').
Proof.
  intros Hcls [dbg Hdbg]. unfold dispatch. rewrite Hcls.
  unfold bind at 1, try_except.
  destruct (convert_and_write _ _ _ _ _ _ _ w) as [[s|e] w1].
  - unfold bind, log, ret. eauto.
  - unfold on_error.
    destruct e; unfold bind, log, raise, ret; rewrite ?(attr_eq _ _ _ _ Hdbg);
      try destruct (truthy dbg); eauto.
Qed.

Lemma parse_args_nil :
  parse_args (create_options_parser enc) [] ∅ = Ok (default_options enc).
Proof.
  unfold parse_args.
  assert (plan (create_options_parser enc) [] = inr [("inputfile", VNone)])
    as -> by (by vm_compute).
  unfold default_options, the_parser. done.
Qed.

Lemma convert_graph_eq src kw w :
  convert_graph' src kw w
  = main' true src (rename_preproc kw ∪ default_options enc) w.
Proof.
  unfold convert_graph, the_parser. unfold bind at 1, lift.
  by rewrite parse_args_nil.
Qed.

(** C5. The conversion is started as a module and the data does not
    parse: the [ParseException] that the converter raises leaves [main],
    and so [convert_graph], as it is; no result is returned in its place.
    [gather] is the part of [main] before the converter is made, [d] and
    [o] the data and the options it is made for. *)
Theorem parse_error_reraised src opts w d fmt o w1 cls line col msg :
  gather' true src opts w = (Ok (d, fmt, o), w1) ->
  select_converter fmt = Some cls ->
  (conv_convert (conv_new cls o) d).1 = Raise (ParseException line col msg) ->
  (exists w', main' true src opts w
              = (Raise (ParseException line col msg), w'))
  /\ (forall kw, opts = rename_preproc kw ∪ default_options enc ->
        exists w', convert_graph' src kw w
                   = (Raise (ParseException line col msg), w')).
Proof.
  intros Hg Hcls Hraise.
  assert (Hmain : exists w', main' true src opts w
                             = (Raise (ParseException line col msg), w')).
  { rewrite (main_eq _ _ _ _ _ _ _ _ Hg).
    eapply dispatch_module_reraises; eauto.
    by apply gather_Ok in Hg as [? _]. }
  split; [done|]. intros kw ->. by rewrite convert_graph_eq.
Qed.


End MainFacts.




(** ** The line with [\input] *)


Lemma log_eq l msg w : log l msg w = (Ok tt, add_log l msg w).
Proof. reflexivity. Qed.

Lemma search_input_blank_line (pre post : list string) (b : string) :
  at_line_start true (join pre) -> all_space b = true -> ends_nl b = true ->
  group1 <$> search input_re (join (pre ++ b :: post))
  = group1 <$> search input_re (join (pre ++ post)).
Proof.
  intros Hpre Hb He. rewrite !join_app, join_cons.
  by apply search_from_blank_line.
Qed.

Lemma follow_input_none b lines w :
  search input_re (join lines) = None -> follow_input b lines w = (Ok lines, w).
Proof. intros H. unfold follow_input. by rewrite H. Qed.

Lemma follow_input_found b lines w m f :
  search input_re (join lines) = Some m ->
  files w !! group1 m = Some f ->
  follow_input b lines w
  = (Ok (readlines (content f)),
     add_log INFO ("Data read from " +:+ group1 m)
       (add_log INFO ("Found \input{" +:+ group1 m +:+ "}") w)).
Proof.
  intros Hm Hf. unfold follow_input. rewrite Hm.
  unfold bind at 1. rewrite log_eq. unfold try_except, load_dot_file.
  unfold bind at 1, get. cbn [files add_log]. by rewrite Hf.
Qed.

Lemma follow_input_missing b lines w m :
  search input_re (join lines) = Some m ->
  files w !! group1 m = None ->
  follow_input b lines w
  = (Raise (if b then OSError (group1 m) else SystemExit 1),
     add_log ERROR ("Failed to load \input{" +:+ group1 m +:+ "}")
       (add_log INFO ("Found \input{" +:+ group1 m +:+ "}") w)).
Proof.
  intros Hm Hf. unfold follow_input. rewrite Hm.
  unfold bind at 1. rewrite log_eq. unfold try_except, load_dot_file.
  unfold bind at 1, get. cbn [files add_log]. rewrite Hf.
  unfold raise, bind. rewrite log_eq. by destruct b.
Qed.

(** [follow_input] looks at the name of the file only. *)
Lemma follow_input_same_name b lines lines' w :
  group1 <$> search input_re (join lines)
  = group1 <$> search input_re (join lines') ->
  is_Some (search input_re (join lines)) ->
  follow_input b lines w = follow_input b lines' w.
Proof.
  intros H [m Hm]. rewrite Hm in H.
  destruct (search input_re (join lines')) as [m'|] eqn:Hm'; [|done].
  injection H as H.
  destruct (files w !! group1 m) as [f|] eqn:Hf.
  - rewrite (follow_input_found _ _ _ _ _ Hm Hf).
    rewrite H in Hf. rewrite (follow_input_found _ _ _ _ _ Hm' Hf). by rewrite H.
  - rewrite (follow_input_missing _ _ _ _ Hm Hf).
    rewrite H in Hf. rewrite (follow_input_missing _ _ _ _ Hm' Hf). by rewrite H.
Qed.

Section Data.

Variables (enc fmt0 : string) (conv : Type).
Variable conv_new : converter -> gmap string value -> conv.
Variable conv_convert : conv -> string -> outcome string * conv.
Variable conv_off : conv -> conv.
Variable md5 : string -> string.
Variable unpickle : string -> option (gmap string string).
Variable pickle : gmap string string -> string.

Local Abbreviation gather' := (gather enc fmt0 md5 unpickle pickle).
Local Abbreviation resolve' := (resolve enc fmt0 md5 unpickle pickle).
Local Abbreviation main' := (main enc fmt0 conv conv_new conv_convert conv_off
                        md5 unpickle pickle).
Local Abbreviation convert_graph' := (convert_graph enc fmt0 conv conv_new conv_convert
                                          conv_off md5 unpickle pickle).

Lemma input_data_module src opts w :
  input_data true src opts w =
    match follow_input true (splitlines src) w with
    | (Ok lines, w') => (Ok (strip_blank_lines lines), add_log DEBUG "Input data:" w')
    | (Raise e, w') => (Raise e, w')
    end.
Proof.
  unfold input_data, bind, ret.
  by destruct (follow_input true (splitlines src) w) as [[lines|e] w'].
Qed.

(** The data depends on the source through [input_data] only. *)
Lemma gather_data_congr b src src' opts w :
  (forall o w', input_data b src o w' = input_data b src' o w') ->
  gather' b src opts w = gather' b src' opts w.
Proof.
  intros H. unfold gather, bind.
  destruct (start enc b opts w) as [[o|e] w0]; [|done]. by rewrite H.
Qed.

Lemma main_data_congr b src src' opts w :
  (forall o w', input_data b src o w' = input_data b src' o w') ->
  main' b src opts w = main' b src' opts w.
Proof.
  intros H. unfold main, bind. by rewrite (gather_data_congr _ _ _ _ _ H).
Qed.

Lemma input_data_blank_line (pre post : list string) b src1 src2 o w :
  splitlines src1 = (pre ++ post)%list ->
  splitlines src2 = (pre ++ b :: post)%list ->
  all_space b = true -> ends_nl b = true -> at_line_start true (join pre) ->
  input_data true src2 o w = input_data true src1 o w.
Proof.
  intros H1 H2 Hb He Hpre. rewrite !input_data_module, H1, H2.
  pose proof (search_input_blank_line pre post b Hpre Hb He) as Hs.
  destruct (search input_re (join (pre ++ post))) as [m|] eqn:Hm.
  - rewrite (follow_input_same_name true (pre ++ b :: post) (pre ++ post)); try done.
    + by rewrite Hm.
    + destruct (search input_re (join (pre ++ b :: post))); [eauto|done].
  - destruct (search input_re (join (pre ++ b :: post))) eqn:Hm'; [done|].
    rewrite !follow_input_none by done.
    by rewrite strip_blank_lines_insert.
Qed.

End Data.



Tactic Notation "mstep" hyp(H) :=
  let a := fresh "a" in
  let w := fresh "w" in
  let Ha := fresh "Hstep" in
  apply bind_Ok in H as (a & w & Ha & H).

Tactic Notation "mstep" hyp(H) "as" ident(a) ident(w) ident(Ha) :=
  apply bind_Ok in H as (a & w & Ha & H).

Lemma log_Ok l msg w (x : unit) w' :
  log l msg w = (Ok x, w') -> w' = add_log l msg w.
Proof. by intros [= _ <-]. Qed.


Lemma rep_name_scan name rest b seen n :
  plain_name name = true ->
  rep false 1 CDot true (match_here [AChr "}"]) b seen (S n)
      (name +:+ String "}" rest)
  = Some (Found (seen +:+ name) rest false).
Proof.
  revert b seen n. induction name as [|c name IH]; intros b seen n Hn.
  - rewrite app_nil_l, app_nil_r. reflexivity.
  - cbn [plain_name] in Hn. apply andb_prop in Hn as [[Hc1 Hc2]%andb_prop Hn].
    rewrite app_cons. cbn [rep in_class]. unfold is_dot at 1. rewrite Hc1.
    change (match_here [AChr "}"] b (String c (name +:+ String "}" rest)))
      with (if Ascii.eqb "}" c
            then Some (Found EmptyString (name +:+ String "}" rest) (is_nl c))
            else None).
    destruct (Ascii.eqb "}" c); [done|]. cbn [Nat.leb fmap option_fmap option_map orelse].
    rewrite IH by done. by rewrite snoc_app.
Qed.

Lemma search_from_here re bol s r :
  match_here re bol s = Some r -> search_from re bol s = Some r.
Proof. intros H. destruct s; simpl; by rewrite H. Qed.

(** A line [\input{name}] at the start of the text is the match, whatever
    follows it. *)
Lemma search_input_first ws c name rest :
  all_space ws = true -> is_nl c = false -> plain_name name = true ->
  search input_re (ws +:+ "\input{" +:+ String c name +:+ String "}" rest)
  = Some (Found (String c name) rest false).
Proof.
  intros Hws Hc Hname. apply search_from_here.
  { rewrite match_here_input, lstrip_app_space by done.
    change (lstrip ("\input{" +:+ ?z)) with ("\input{" +:+ z).
    change (match_here input_tail true ("\input{" +:+ ?z))
      with (rep false 1 CDot true (match_here [AChr "}"]) false EmptyString 0 z).
    rewrite app_cons. cbn [rep in_class]. unfold is_dot at 1. rewrite Hc.
    cbn [negb Nat.leb orelse]. by rewrite rep_name_scan. }
Qed.

Lemma strip_blank_lines_keeps (lines : list string) l :
  l ∈ lines -> strip_nonempty l = true ->
  exists a z, strip_blank_lines lines = a +:+ l +:+ z.
Proof.
  unfold strip_blank_lines. intros Hl Hk.
  induction lines as [|x lines IH]; [by apply elem_of_nil in Hl|].
  apply elem_of_cons in Hl as [<-|Hl].
  - cbn [List.filter]. rewrite Hk. exists EmptyString. eexists. by rewrite join_cons.
  - destruct (IH Hl) as (a & z & Heq). cbn [List.filter].
    destruct (strip_nonempty x).
    + exists (x +:+ a), z. by rewrite join_cons, Heq, str_app_assoc.
    + eauto.
Qed.


Section Module.

Variables (enc fmt0 : string) (conv : Type).
Variable conv_new : converter -> gmap string value -> conv.
Variable conv_convert : conv -> string -> outcome string * conv.
Variable conv_off : conv -> conv.
Variable md5 : string -> string.
Variable unpickle : string -> option (gmap string string).
Variable pickle : gmap string string -> string.

Local Abbreviation gather' := (gather enc fmt0 md5 unpickle pickle).
Local Abbreviation resolve' := (resolve enc fmt0 md5 unpickle pickle).
Local Abbreviation main' := (main enc fmt0 conv conv_new conv_convert conv_off
                        md5 unpickle pickle).
Local Abbreviation convert_graph' := (convert_graph enc fmt0 conv conv_new conv_convert
                                          conv_off md5 unpickle pickle).

Lemma start_module_eq opts w rt :
  opts !! "runtests" = Some rt -> truthy rt = false -> is_Some (opts !! "debug") ->
  start enc true opts w = (Ok opts, start_log w).
Proof.
  intros Hrt Hf [dbg Hdbg]. unfold start, bind, ret.
  rewrite (attr_eq _ _ _ _ Hrt), Hf, (attr_eq _ _ _ _ Hdbg). reflexivity.
Qed.

Lemma start_module_Ok opts w o w0 :
  start enc true opts w = (Ok o, w0) ->
  o = opts /\ w0 = start_log w
  /\ exists rt, opts !! "runtests" = Some rt /\ truthy rt = false.
Proof.
  intros H. unfold start in H.
  mstep H as o1 w1 H1. injection H1 as <- <-.
  mstep H as rt w2 H2. apply attr_Ok in H2 as [Hrt ->].
  destruct (truthy rt) eqn:Hf.
  { mstep H as x w3 H3. done. }
  mstep H as dbg w3 H3. apply attr_Ok in H3 as [Hdbg ->].
  mstep H as x1 w4 H4. apply log_Ok in H4 as ->.
  mstep H as x2 w5 H5. apply log_Ok in H5 as ->.
  mstep H as x3 w6 H6. apply log_Ok in H6 as ->.
  mstep H as x4 w7 H7. apply log_Ok in H7 as ->.
  mstep H as x5 w8 H8. apply log_Ok in H8 as ->.
  injection H as <- <-. eauto.
Qed.

Lemma graph_format_log d w :
  exists w1,
    (match graph_format d with
     | VStr f => log INFO ("Found outputformat attribute: " +:+ f)
     | _ => ret tt
     end) w = (Ok tt, w1) /\ files w1 = files w.
Proof. destruct (graph_format d); eauto. Qed.

Lemma resolve_module_eq d opts w c o' f :
  opts !! "cache" = Some c ->
  match d2toptions d with
  | Some x => parse_args (create_options_parser enc) (split x) opts
  | None => Ok opts
  end = Ok o' ->
  o' !! "format" = Some f ->
  exists w1, resolve' true d opts w
             = (Ok (d, py_or (py_or f (graph_format d)) (VStr fmt0),
                    <["format" := py_or (py_or f (graph_format d)) (VStr fmt0)]> o'),
                w1)
             /\ files w1 = files w.
Proof.
  intros Hc Hm Hf. unfold resolve.
  rewrite (bind_eq_Ok _ _ _ _ _ (attr_eq _ _ _ _ Hc)).
  rewrite andb_false_r.
  rewrite (bind_eq_Ok _ _ w tt w eq_refl).
  destruct (graph_format_log d w) as (w1 & Hlog & Hw1).
  rewrite (bind_eq_Ok _ _ _ _ _ Hlog).
  assert (Hmerge : exists w2, merge_graph_options enc d opts w1 = (Ok o', w2)
                              /\ files w2 = files w).
  { unfold merge_graph_options, the_parser. destruct (d2toptions d) as [x|].
    - unfold bind, lift. rewrite log_eq, Hm. eauto.
    - injection Hm as <-. eauto. }
  destruct Hmerge as (w2 & Hmerge & Hw2).
  rewrite (bind_eq_Ok _ _ _ _ _ Hmerge).
  rewrite (bind_eq_Ok _ _ _ _ _ (attr_eq _ _ _ _ Hf)).
  eauto.
Qed.

(** A run as a module without [\input]: what [gather] gives. *)
Lemma gather_module_plain src opts w rt c o' f :
  opts !! "runtests" = Some rt -> truthy rt = false ->
  is_Some (opts !! "debug") -> opts !! "cache" = Some c ->
  search input_re src = None ->
  match d2toptions (strip_blank_lines (splitlines src)) with
  | Some x => parse_args (create_options_parser enc) (split x) opts
  | None => Ok opts
  end = Ok o' ->
  o' !! "format" = Some f ->
  exists w1,
    gather' true src opts w
    = (Ok (strip_blank_lines (splitlines src),
           py_or (py_or f (graph_format (strip_blank_lines (splitlines src))))
                 (VStr fmt0),
           <["format" := py_or (py_or f (graph_format (strip_blank_lines (splitlines src))))
                               (VStr fmt0)]> o'), w1)
    /\ files w1 = files w.
Proof.
  intros Hrt Hfalse Hdbg Hc Hs Hm Hf. unfold gather. unfold bind at 1.
  rewrite (start_module_eq _ _ _ Hrt Hfalse Hdbg). unfold bind at 1.
  rewrite input_data_module, follow_input_none by (by rewrite join_splitlines).
  destruct (resolve_module_eq (strip_blank_lines (splitlines src)) opts
              (add_log DEBUG "Input data:" (start_log w)) c o' f Hc Hm Hf)
    as (w1 & -> & Hw1).
  eauto.
Qed.

End Module.



Section Claims.

Variables (enc fmt0 : string) (conv : Type).
Variable conv_new : converter -> gmap string value -> conv.
Variable conv_convert : conv -> string -> outcome string * conv.
Variable conv_off : conv -> conv.
Variable md5 : string -> string.
Variable unpickle : string -> option (gmap string string).
Variable pickle : gmap string string -> string.

Local Abbreviation gather' := (gather enc fmt0 md5 unpickle pickle).
Local Abbreviation resolve' := (resolve enc fmt0 md5 unpickle pickle).
Local Abbreviation main' := (main enc fmt0 conv conv_new conv_convert conv_off
                        md5 unpickle pickle).
Local Abbreviation convert_graph' := (convert_graph enc fmt0 conv conv_new conv_convert
                                          conv_off md5 unpickle pickle).


Lemma gather_module_input src opts w m d fmt o w1 :
  search input_re src = Some m ->
  gather' true src opts w = (Ok (d, fmt, o), w1) ->
  exists f, files w !! group1 m = Some f
            /\ d = strip_blank_lines (readlines (content f)).
Proof.
  intros Hm H. unfold gather in H.
  mstep H as o0 w0 H0. apply start_module_Ok in H0 as (-> & -> & _).
  mstep H as d0 w2 H2. apply resolve_Ok in H as (-> & _).
  rewrite input_data_module in H2.
  rewrite <- (join_splitlines src) in Hm.
  destruct (files (start_log w) !! group1 m) as [f|] eqn:Hf.
  - rewrite (follow_input_found _ _ _ _ _ Hm Hf) in H2.
    injection H2 as <- _. eauto.
  - by rewrite (follow_input_missing _ _ _ _ Hm Hf) in H2.
Qed.

Lemma main_module_input_missing src opts w m rt :
  search input_re src = Some m -> files w !! group1 m = None ->
  opts !! "runtests" = Some rt -> truthy rt = false ->
  is_Some (opts !! "debug") ->
  exists w', main' true src opts w = (Raise (OSError (group1 m)), w').
Proof.
  intros Hm Hf Hrt Hfalse Hdbg. unfold main, gather.
  unfold bind at 1. unfold bind at 1.
  rewrite (start_module_eq _ _ _ _ Hrt Hfalse Hdbg).
  unfold bind at 1. rewrite input_data_module.
  rewrite <- (join_splitlines src) in Hm.
  rewrite (follow_input_missing true _ (start_log w) _ Hm Hf). eauto.
Qed.


End Claims.



(** ** What the result of a run depends on *)

Lemma pure_ret {A} (a : A) : pure_result (ret a).
Proof. done. Qed.

Lemma pure_raise {A} e : pure_result (@raise A e).
Proof. done. Qed.

Lemma pure_lift {A} (o : outcome A) : pure_result (lift o).
Proof. done. Qed.

Lemma pure_log l msg : pure_result (log l msg).
Proof. done. Qed.

Lemma pure_print s : pure_result (print s).
Proof. done. Qed.

Lemma pure_write_file name s : pure_result (write_file name s).
Proof. done. Qed.

Lemma pure_attr o k : pure_result (attr o k).
Proof. intros w w'. unfold attr. by destruct (o !! k). Qed.

Lemma pure_as_path v : pure_result (as_path v).
Proof. intros w w'. by destruct v. Qed.

Lemma pure_bind {A B} (m : M A) (k : A -> M B) :
  pure_result m -> (forall a, pure_result (k a)) -> pure_result (bind m k).
Proof.
  intros Hm Hk w w'. unfold bind. specialize (Hm w w').
  destruct (m w) as [[a|e] w1], (m w') as [[a'|e'] w1']; simpl in *;
    simplify_eq; [apply Hk|done].
Qed.

Lemma pure_try_except {A} (m : M A) (h : exn -> M A) :
  pure_result m -> (forall e, pure_result (h e)) -> pure_result (try_except m h).
Proof.
  intros Hm Hh w w'. unfold try_except. specialize (Hm w w').
  destruct (m w) as [[a|e] w1], (m w') as [[a'|e'] w1']; simpl in *;
    simplify_eq; [done|apply Hh].
Qed.

Lemma pure_if {A} (b : bool) (m1 m2 : M A) :
  pure_result m1 -> pure_result m2 -> pure_result (if b then m1 else m2).
Proof. by destruct b. Qed.

Lemma pure_determined R {A} (m : M A) : pure_result m -> determined R m.
Proof. intros H w w' _. apply H. Qed.

Lemma determined_bind R {A B} (m : M A) (k : A -> M B) :
  determined R m -> (forall a, pure_result (k a)) -> determined R (bind m k).
Proof.
  intros Hm Hk w w' HR. unfold bind. specialize (Hm w w' HR).
  destruct (m w) as [[a|e] w1], (m w') as [[a'|e'] w1']; simpl in *;
    simplify_eq; [apply Hk|done].
Qed.

Lemma determined_bind_keeps R {A B} (m : M A) (k : A -> M B) :
  pure_result m -> keeps R m -> (forall a, determined R (k a)) ->
  determined R (bind m k).
Proof.
  intros Hm Hkeep Hk w w' HR. unfold bind.
  specialize (Hm w w'). specialize (Hkeep w w' HR).
  destruct (m w) as [[a|e] w1], (m w') as [[a'|e'] w1']; simpl in *;
    simplify_eq; [by apply Hk|done].
Qed.

Lemma pure_sys_exit {A} n : pure_result (@sys_exit A n).
Proof. done. Qed.

Ltac pure_tac :=
  repeat first
    [ apply pure_ret | apply pure_raise | apply pure_lift | apply pure_log
    | apply pure_print | apply pure_write_file | apply pure_attr
    | apply pure_as_path | apply pure_sys_exit
    | apply pure_bind; [|intros ?]
    | apply pure_try_except; [|intros ?]
    | match goal with
      | |- pure_result (if ?b then _ else _) => destruct b
      | |- pure_result (match ?x with _ => _ end) => destruct x
      end ].

Section Determinism.

Variables (enc fmt0 : string) (conv : Type).
Variable conv_new : converter -> gmap string value -> conv.
Variable conv_convert : conv -> string -> outcome string * conv.
Variable conv_off : conv -> conv.
Variable md5 : string -> string.
Variable unpickle : string -> option (gmap string string).
Variable pickle : gmap string string -> string.

Local Abbreviation gather' := (gather enc fmt0 md5 unpickle pickle).
Local Abbreviation resolve' := (resolve enc fmt0 md5 unpickle pickle).
Local Abbreviation dispatch' := (dispatch conv conv_new conv_convert conv_off).
Local Abbreviation main' := (main enc fmt0 conv conv_new conv_convert conv_off
                        md5 unpickle pickle).
Local Abbreviation convert_graph' := (convert_graph enc fmt0 conv conv_new conv_convert
                                          conv_off md5 unpickle pickle).

Lemma pure_start opts : pure_result (start enc true opts).
Proof. unfold start. pure_tac. Qed.

Lemma keeps_start src opts : keeps (same_input_file src) (start enc true opts).
Proof.
  assert (Hfiles : forall w, files (start enc true opts w).2 = files w).
  { intros w. unfold start, bind, attr, ret, raise.
    destruct (opts !! "runtests") as [rt|]; [|reflexivity].
    cbv beta iota zeta.
    destruct (truthy rt); [reflexivity|].
    destruct (opts !! "debug"); reflexivity. }
  intros w w' HR m Hm. rewrite !Hfiles. by apply HR.
Qed.

Lemma pure_resolve d o : pure_result (resolve' true d o).
Proof.
  unfold resolve, merge_graph_options.
  apply pure_bind; [apply pure_attr|]. intros c.
  rewrite andb_false_r. pure_tac.
Qed.

Lemma determined_follow_input src :
  determined (same_input_file src) (follow_input true (splitlines src)).
Proof.
  intros w w' HR. unfold follow_input. rewrite join_splitlines.
  destruct (search input_re src) as [m|] eqn:Hm; [|done].
  specialize (HR m Hm).
  unfold bind, log, try_except, load_dot_file, bind, get. cbn [files add_log].
  destruct (files w !! group1 m) as [f|], (files w' !! group1 m) as [f'|];
    simplify_eq/=; [by rewrite HR|done].
Qed.

Lemma determined_input_data src o :
  determined (same_input_file src) (input_data true src o).
Proof.
  intros w w' HR. rewrite !input_data_module.
  pose proof (determined_follow_input src w w' HR) as H.
  destruct (follow_input true (splitlines src) w) as [[l|e] w1],
           (follow_input true (splitlines src) w') as [[l'|e'] w1'];
    simpl in *; by simplify_eq.
Qed.

Lemma determined_gather src opts :
  determined (same_input_file src) (gather' true src opts).
Proof.
  unfold gather.
  apply determined_bind_keeps; [apply pure_start|apply keeps_start|]. intros o.
  apply determined_bind; [apply determined_input_data|]. intros d.
  apply pure_resolve.
Qed.

Lemma pure_dispatch d fmt o : pure_result (dispatch' true d fmt o).
Proof. unfold dispatch, convert_and_write, on_error. pure_tac. Qed.

Lemma determined_main src opts :
  determined (same_input_file src) (main' true src opts).
Proof.
  unfold main. apply determined_bind; [apply determined_gather|].
  intros [[d fmt] o]. apply pure_dispatch.
Qed.


End Determinism.





Lemma parse_args_plan p args ns ns' :
  parse_args p args ns = Ok ns' ->
  exists asgs, plan p args = inr asgs /\ ns' = assign (fill_defaults p ns) asgs.
Proof.
  unfold parse_args. destruct (plan p args) as [|asgs]; [done|].
  intros [= <-]. eauto.
Qed.

Lemma parse_args_lookup p args ns ns' asgs k :
  parse_args p args ns = Ok ns' -> plan p args = inr asgs ->
  is_Some (ns !! k) ->
  ns' !! k = match last_assigned k asgs with Some v => Some v | None => ns !! k end.
Proof.
  intros (asgs' & Hp & ->)%parse_args_plan Hplan [v Hv].
  rewrite Hp in Hplan. injection Hplan as ->.
  rewrite lookup_assign. by rewrite (fill_defaults_keeps _ _ _ _ Hv), Hv.
Qed.

Section Options.

Variables (enc fmt0 : string) (conv : Type).
Variable conv_new : converter -> gmap string value -> conv.
Variable conv_convert : conv -> string -> outcome string * conv.
Variable conv_off : conv -> conv.
Variable md5 : string -> string.
Variable unpickle : string -> option (gmap string string).
Variable pickle : gmap string string -> string.

Local Abbreviation gather' := (gather enc fmt0 md5 unpickle pickle).
Local Abbreviation resolve' := (resolve enc fmt0 md5 unpickle pickle).

(** The options at the start: those given to [main] as a module, those of
    [sys.argv] on the command line. *)
Lemma start_Ok_base b opts w o w0 :
  start enc b opts w = (Ok o, w0) ->
  if b then o = opts
  else parse_args (create_options_parser enc) (tail (sys_argv w)) ∅ = Ok o.
Proof.
  intros H. unfold start in H. mstep H as o1 w1 H1.
  assert (Hbase : if b then o1 = opts
                  else parse_args (create_options_parser enc)
                                  (tail (sys_argv w)) ∅ = Ok o1).
  { destruct b; [by injection H1 as <- _|].
    unfold bind, get, lift, the_parser in H1.
    by destruct (parse_args _ _ _); simplify_eq. }
  mstep H as rt w2 H2. destruct (truthy rt).
  { mstep H as x w3 H3. done. }
  mstep H as x3 w3 H3. mstep H as x4 w4 H4. mstep H as x5 w5 H5.
  mstep H as x6 w6 H6. mstep H as x7 w7 H7. mstep H as x8 w8 H8.
  by injection H as <- _.
Qed.

Lemma merge_graph_options_Ok d base w o' w' :
  merge_graph_options enc d base w = (Ok o', w') ->
  match d2toptions d with
  | Some x => parse_args (create_options_parser enc) (split x) base = Ok o'
  | None => o' = base
  end.
Proof.
  unfold merge_graph_options, the_parser. destruct (d2toptions d) as [x|].
  - unfold bind, log, lift. by destruct (parse_args _ _ _); intros [= <- _].
  - by intros [= <- _].
Qed.

Lemma resolve_Ok_merge b d0 base w d fmt o w' :
  resolve' b d0 base w = (Ok (d, fmt, o), w') ->
  d = d0
  /\ exists o' f,
       match d2toptions d with
       | Some x => parse_args (create_options_parser enc) (split x) base = Ok o'
       | None => o' = base
       end
       /\ o' !! "format" = Some f
       /\ fmt = py_or (py_or f (graph_format d)) (VStr fmt0)
       /\ o = <["format" := fmt]> o'.
Proof.
  intros H. unfold resolve in H.
  mstep H as c w1 H1. mstep H as x2 w2 H2. mstep H as x3 w3 H3.
  mstep H as o' w4 H4. mstep H as f w5 H5.
  apply attr_Ok in H5 as [Hf _]. injection H as <- <- <- _.
  split; [done|]. exists o', f. split_and!; try done.
  by eapply merge_graph_options_Ok.
Qed.

Lemma gather_Ok_resolve b src opts w d fmt o w1 :
  gather' b src opts w = (Ok (d, fmt, o), w1) ->
  exists base w0,
    (if b then base = opts
     else parse_args (create_options_parser enc) (tail (sys_argv w)) ∅ = Ok base)
    /\ resolve' b d base w0 = (Ok (d, fmt, o), w1).
Proof.
  intros H. unfold gather in H.
  mstep H as base w0 H0. apply start_Ok_base in H0.
  mstep H as d0 w2 H2.
  pose proof H as H'. apply resolve_Ok in H' as (-> & _). eauto.
Qed.


(** C2, as amended. The first [d2toptions] of the data is
    [--straightedges]: the options that the converter is made from have
    [straightedges] set, and the emitter of the spec draws every edge as
    the straight line from its first point to its last, whatever the
    control points of the curve are. *)
Theorem straightedges_from_graph b src opts w d fmt o w1 x :
  gather' b src opts w = (Ok (d, fmt, o), w1) ->
  d2toptions d = Some x -> split x = ["--straightedges"] ->
  o !! "straightedges" = Some (VBool true)
  /\ forall a cs, Emitter.emit_edge o a cs
                  = Emitter.StraightLine a (List.last cs a).
Proof.
  intros (base & w0 & Hbase & H)%gather_Ok_resolve Hx Hsplit.
  apply resolve_Ok_merge in H as (_ & o' & f & Hm & Hf & -> & ->).
  rewrite Hx, Hsplit in Hm.
  assert (Hplan : plan (create_options_parser enc) ["--straightedges"]
                  = inr [("straightedges", VBool true); ("inputfile", VNone)])
    by (by vm_compute).
  destruct (parse_args_plan _ _ _ _ Hm) as (asgs & Hplan' & ->).
  rewrite Hplan in Hplan'. injection Hplan' as <-.
  assert (Hs : (<["format" := py_or (py_or f (graph_format d)) (VStr fmt0)]>
                 (assign (fill_defaults (create_options_parser enc) base)
                    [("straightedges", VBool true); ("inputfile", VNone)]))
               !! "straightedges" = Some (VBool true)).
  { rewrite lookup_insert_ne by done. by rewrite lookup_assign. }
  split; [done|]. intros a cs. unfold Emitter.emit_edge. by rewrite Hs.
Qed.

End Options.

(** ** The parser of drawing strings *)





(** ** The parser of drawing strings *)

Import Xdot.

Section XdotFacts.

Variable signature : ascii -> option (list argkind).


Lemma read_num_kind s t r : read_num s = inr (t, r) -> is_number t = true.
Proof.
  unfold read_num. destruct (token (lstrip s)) as [t' r'].
  destruct (is_number t') eqn:Ht; [|done]. by intros [= <- _].
Qed.

Lemma read_arg_kind k s a r : read_arg k s = inr (a, r) -> has_kind a k.
Proof.
  destruct k; simpl.
  - destruct (read_num s) as [|[t r']]; [done|]. intros [= <- _]. constructor.
  - destruct (read_str s) as [|[t r']]; [done|]. intros [= <- _]. constructor.
  - destruct (read_count s) as [|[n r']]; [done|].
    destruct (read_points n r') as [|[ps r'']]; [done|].
    intros [= <- _]. constructor.
Qed.

Lemma read_args_kind ks s l r :
  read_args ks s = inr (l, r) -> Forall2 has_kind l ks.
Proof.
  revert s l r. induction ks as [|k ks IH]; intros s l r; simpl.
  - intros [= <- _]. constructor.
  - destruct (read_arg k s) as [|[a r']] eqn:Ha; [done|].
    destruct (read_args ks r') as [|[l' r'']] eqn:Hl; [done|].
    intros [= <- _]. constructor; [by eapply read_arg_kind|by eapply IH].
Qed.

(** Every operation that the parser gives has all the arguments that its
    opcode declares. *)
Lemma parse_ops_complete fuel s ops skipped :
  parse_ops signature fuel s = inr (ops, skipped) ->
  Forall (complete signature) ops.
Proof.
  revert s ops skipped. induction fuel as [|fuel IH]; intros s ops skipped; [done|].
  simpl. destruct (lstrip s) as [|c r]; [by intros [= <- _]|].
  destruct (signature c) as [ks|] eqn:Hc.
  - destruct (read_args ks r) as [|[l r']] eqn:Hl; [done|].
    destruct (parse_ops signature fuel r') as [|[ops' sk']] eqn:Hp; [done|].
    intros [= <- _]. constructor; [|by eapply IH].
    exists ks. split; [done|]. by eapply read_args_kind.
  - destruct (parse_ops signature fuel r) as [|[ops' sk']] eqn:Hp; [done|].
    intros [= <- _]. by eapply IH.
Qed.

Lemma token_app t rest :
  no_space t = true -> boundary rest -> token (t +:+ rest) = (t, rest).
Proof.
  intros Ht Hr. induction t as [|c t IH].
  - rewrite app_nil_l. destruct rest as [|d rest]; [done|].
    simpl in Hr. simpl. by rewrite Hr.
  - cbn [no_space] in Ht. apply andb_prop in Ht as [Hc Ht].
    rewrite app_cons. cbn [token]. apply negb_true_iff in Hc. rewrite Hc.
    by rewrite IH.
Qed.

Lemma number_char_no_space c : number_char c = true -> is_space c = false.
Proof.
  unfold number_char, is_space. generalize (code c). intros n H.
  apply not_true_iff_false. intros Hs. revert H Hs.
  rewrite !orb_true_iff, !andb_true_iff, !N.leb_le, !N.eqb_eq. lia.
Qed.

Lemma number_chars_no_space t : number_chars t = true -> no_space t = true.
Proof.
  induction t as [|c t IH]; [done|]. cbn [number_chars no_space].
  intros [Hc Ht]%andb_prop. by rewrite (number_char_no_space _ Hc), IH.
Qed.

Lemma is_number_no_space t : is_number t = true -> no_space t = true.
Proof.
  unfold is_number. intros [_ H]%andb_prop. by apply number_chars_no_space.
Qed.

Lemma lstrip_blank s : lstrip (blank +:+ s) = lstrip s.
Proof. reflexivity. Qed.

Lemma lstrip_no_space c s : is_space c = false -> lstrip (String c s) = String c s.
Proof. intros H. by rewrite lstrip_cons, H. Qed.

Lemma is_number_nonempty t : is_number t = true -> exists c t', t = String c t'.
Proof. destruct t; [done|eauto]. Qed.

Lemma read_num_enc t rest :
  is_number t = true -> boundary rest ->
  read_num (enc_num t +:+ rest) = inr (t, rest).
Proof.
  intros Ht Hr. unfold read_num, enc_num.
  rewrite str_app_assoc, lstrip_blank.
  destruct (is_number_nonempty t Ht) as (c & t' & ->).
  pose proof (is_number_no_space _ Ht) as Hns.
  rewrite app_cons, lstrip_no_space, <- app_cons.
  - by rewrite token_app, Ht.
  - cbn [no_space] in Hns. apply andb_prop in Hns as [Hc _].
    by apply negb_true_iff in Hc.
Qed.

Lemma uint_no_space d : no_space (NilEmpty.string_of_uint d) = true.
Proof. induction d; simpl; by rewrite ?IHd. Qed.

Lemma print_nat_no_space n : no_space (print_nat n) = true.
Proof.
  unfold print_nat, NilZero.string_of_uint.
  destruct (Nat.to_uint n) eqn:Hn; try (rewrite <- Hn); try reflexivity;
    rewrite Hn; apply uint_no_space.
Qed.

Lemma parse_print_nat n : parse_nat (print_nat n) = Some n.
Proof.
  unfold parse_nat, print_nat.
  pose proof (DecimalNat.Unsigned.of_to n) as Hn.
  destruct (Nat.to_uint n) as [|d|d|d|d|d|d|d|d|d|d] eqn:Hd;
    [by rewrite <- Hn|rewrite NilZero.usu by done; simpl; by rewrite Hn..].
Qed.

Lemma print_nat_nonempty n : exists c t, print_nat n = String c t.
Proof.
  pose proof (parse_print_nat n) as H. destruct (print_nat n); [done|eauto].
Qed.

Lemma read_count_enc n rest :
  boundary rest ->
  read_count (blank +:+ print_nat n +:+ rest) = inr (n, rest).
Proof.
  intros Hr. unfold read_count. rewrite lstrip_blank.
  destruct (print_nat_nonempty n) as (c & t & Hp).
  pose proof (print_nat_no_space n) as Hns.
  assert (Hl : lstrip (print_nat n +:+ rest) = print_nat n +:+ rest).
  { rewrite Hp, app_cons. apply lstrip_no_space.
    rewrite Hp in Hns. cbn [no_space] in Hns. apply andb_prop in Hns as [Hc _].
    by apply negb_true_iff in Hc. }
  rewrite Hl, token_app by done. by rewrite parse_print_nat.
Qed.

Lemma take_chars_app s rest :
  take_chars (String.length s) (s +:+ rest) = Some (s, rest).
Proof.
  induction s as [|c s IH]; [done|].
  rewrite app_cons. cbn [String.length take_chars]. by rewrite IH.
Qed.

Lemma take_chars_short n s :
  String.length s < n -> take_chars n s = None.
Proof.
  revert s. induction n as [|n IH]; intros s Hn; [lia|].
  destruct s as [|c s]; [done|]. cbn [String.length] in Hn.
  cbn [take_chars]. rewrite IH by lia. done.
Qed.

Lemma lstrip_dash z : lstrip (" -" +:+ z) = String "-" z.
Proof. reflexivity. Qed.

Lemma read_str_enc s rest :
  read_str (enc_arg (Str s) +:+ rest) = inr (s, rest).
Proof.
  unfold read_str. cbn [enc_arg]. rewrite !str_app_assoc.
  rewrite read_count_enc by done.
  by rewrite lstrip_dash, take_chars_app.
Qed.

(** A string that declares more characters than there are. *)
Lemma read_str_overrun n s :
  String.length s < n ->
  read_str (blank +:+ print_nat n +:+ " -" +:+ s) = inl MalformedDrawingString.
Proof.
  intros Hn. unfold read_str. rewrite read_count_enc by done.
  by rewrite lstrip_dash, take_chars_short.
Qed.

Lemma boundary_blank s : boundary (blank +:+ s).
Proof. done. Qed.

Lemma boundary_enc_points ps rest : boundary rest -> boundary (enc_points ps +:+ rest).
Proof. destruct ps as [|[x y] ps]; [done|]. intros _. done. Qed.

Lemma read_points_enc ps rest :
  Forall (fun p => is_number p.1 = true /\ is_number p.2 = true) ps ->
  boundary rest ->
  read_points (List.length ps) (enc_points ps +:+ rest) = inr (ps, rest).
Proof.
  intros Hps Hr. induction Hps as [|[x y] ps [Hx Hy] Hps IH]; [done|].
  cbn [List.length read_points enc_points]. rewrite !str_app_assoc.
  rewrite read_num_enc; [|done|done].
  rewrite read_num_enc; [|done|by apply boundary_enc_points].
  by rewrite IH.
Qed.

Lemma boundary_enc_points_end ps : boundary (enc_points ps).
Proof. by destruct ps as [|[x y] ps]. Qed.

(** Fewer pairs of coordinates than the count declares. *)
Lemma read_points_short ps n :
  Forall (fun p => is_number p.1 = true /\ is_number p.2 = true) ps ->
  List.length ps < n ->
  read_points n (enc_points ps) = inl MalformedDrawingString.
Proof.
  intros Hps. revert n. induction Hps as [|[x y] ps [Hx Hy] Hps IH]; intros n Hn.
  - destruct n; [simpl in Hn; lia|]. reflexivity.
  - destruct n; [simpl in Hn; lia|]. cbn [List.length] in Hn.
    cbn [read_points enc_points].
    rewrite read_num_enc; [|done|done].
    rewrite read_num_enc; [|done|by apply boundary_enc_points_end].
    rewrite IH by lia. done.
Qed.

Lemma boundary_enc_arg a rest : boundary (enc_arg a +:+ rest).
Proof. by destruct a. Qed.

Lemma boundary_enc_args l rest : boundary rest -> boundary (enc_args l +:+ rest).
Proof.
  destruct l as [|a l]; [done|]. intros _. cbn [enc_args].
  rewrite str_app_assoc. apply boundary_enc_arg.
Qed.

Lemma boundary_enc_args_end l : boundary (enc_args l).
Proof. destruct l as [|a l]; [done|]. cbn [enc_args]. apply boundary_enc_arg. Qed.

Lemma read_arg_enc a k rest :
  has_kind a k -> wf_arg a -> boundary rest ->
  read_arg k (enc_arg a +:+ rest) = inr (a, rest).
Proof.
  intros Hk Hwf Hr. destruct Hk; cbn [read_arg].
  - cbn [enc_arg]. by rewrite read_num_enc.
  - by rewrite read_str_enc.
  - cbn [enc_arg]. rewrite !str_app_assoc.
    rewrite read_count_enc by (by apply boundary_enc_points).
    by rewrite read_points_enc.
Qed.

Lemma read_args_enc l ks rest :
  Forall2 has_kind l ks -> Forall wf_arg l -> boundary rest ->
  read_args ks (enc_args l +:+ rest) = inr (l, rest).
Proof.
  intros Hk. revert rest. induction Hk as [|a k l ks Ha Hl IH]; intros rest Hwf Hr.
  - done.
  - apply Forall_cons in Hwf as [Hwa Hwl].
    cbn [enc_args read_args]. rewrite str_app_assoc.
    rewrite (read_arg_enc a k) by (try done; by apply boundary_enc_args).
    by rewrite IH.
Qed.

Lemma read_arg_empty k : read_arg k EmptyString = inl MalformedDrawingString.
Proof. by destruct k. Qed.

(** The stream ends before all the arguments are there. *)
Lemma read_args_short l ks1 k ks2 :
  Forall2 has_kind l ks1 -> Forall wf_arg l ->
  read_args (ks1 ++ k :: ks2) (enc_args l) = inl MalformedDrawingString.
Proof.
  intros Hk. induction Hk as [|a k1 l ks1 Ha Hl IH]; intros Hwf.
  - cbn [app enc_args read_args]. by rewrite read_arg_empty.
  - apply Forall_cons in Hwf as [Hwa Hwl].
    cbn [app enc_args read_args].
    rewrite (read_arg_enc a k1) by (try done; by apply boundary_enc_args_end).
    by rewrite IH.
Qed.

Lemma read_args_app l ks1 ks2 rest :
  Forall2 has_kind l ks1 -> Forall wf_arg l -> boundary rest ->
  read_args (ks1 ++ ks2) (enc_args l +:+ rest)
  = match read_args ks2 rest with
    | inl e => inl e
    | inr (l', r) => inr ((l ++ l')%list, r)
    end.
Proof.
  intros Hk. induction Hk as [|a k1 l ks1 Ha Hl IH]; intros Hwf Hr.
  - cbn [app enc_args]. rewrite app_nil_l.
    by destruct (read_args ks2 rest) as [|[l' r]].
  - apply Forall_cons in Hwf as [Hwa Hwl].
    cbn [app enc_args read_args]. rewrite str_app_assoc.
    rewrite (read_arg_enc a k1) by (try done; by apply boundary_enc_args).
    rewrite IH by done. by destruct (read_args ks2 rest) as [|[l' r]].
Qed.

Lemma str_length_app (a b : string) :
  String.length (a +:+ b) = String.length a + String.length b.
Proof. induction a as [|c a IH]; [done|]. rewrite app_cons. simpl. by rewrite IH. Qed.

Lemma length_encode (ops : list operation) :
  List.length ops <= String.length (encode ops).
Proof.
  induction ops as [|op ops IH]; [done|]. cbn [encode List.length].
  rewrite str_length_app. unfold enc_op. simpl. lia.
Qed.

Lemma boundary_encode ops rest : boundary rest -> boundary (encode ops +:+ rest).
Proof. destruct ops as [|op ops]; [done|]. by intros _. Qed.

(** The parser reads the encoding of operations back, one operation for
    each unit of fuel, and goes on with what follows. *)
Lemma parse_ops_encode ops f rest :
  Forall (wf_op signature) ops -> boundary rest ->
  parse_ops signature (List.length ops + f) (encode ops +:+ rest)
  = match parse_ops signature f rest with
    | inl e => inl e
    | inr (os, sk) => inr ((ops ++ os)%list, sk)
    end.
Proof.
  intros Hops Hr. induction Hops as [|[c l] ops (Hc & (ks & Hks & Hk) & Hwf) Hops IH].
  - rewrite app_nil_l. cbn [List.length Nat.add].
    by destruct (parse_ops signature f rest) as [|[os sk]].
  - cbn [opcode args] in Hc, Hks, Hk, Hwf.
    cbn [List.length Nat.add parse_ops encode]. unfold enc_op. cbn [opcode args].
    rewrite !str_app_assoc, lstrip_blank, app_cons, lstrip_no_space by done.
    rewrite Hks.
    rewrite (read_args_enc l ks _ Hk Hwf (boundary_encode _ _ Hr)).
    rewrite IH. by destruct (parse_ops signature f rest) as [|[os sk]].
Qed.

Lemma parse_drawstring_encode_then ops x :
  Forall (wf_op signature) ops -> boundary x ->
  exists f,
    parse_drawstring signature (encode ops +:+ x)
    = match parse_ops signature (S f) x with
      | inl e => inl e
      | inr (os, sk) => inr ((ops ++ os)%list, sk)
      end.
Proof.
  intros Hops Hx. unfold parse_drawstring.
  pose proof (length_encode ops) as Hlen.
  exists (String.length (encode ops +:+ x) - List.length ops).
  rewrite <- (parse_ops_encode ops) by done. f_equal.
  rewrite str_length_app in *. lia.
Qed.


End XdotFacts.


(** ** The examples *)




Lemma default_options_lookups :
  default_options "utf8" !! "runtests" = Some (VBool false)
  /\ default_options "utf8" !! "debug" = Some (VBool false)
  /\ default_options "utf8" !! "cache" = Some (VBool false)
  /\ default_options "utf8" !! "format" = Some VNone.
Proof. split_and!; by vm_compute. Qed.

Lemma straight_graph_gather :
  exists w1,
    Sample.sample_gather true straight_graph (default_options "utf8") Sample.empty_world
    = (Ok (straight_graph, VStr "tikz",
           <["format" := VStr "tikz"]>
             (assign (fill_defaults (create_options_parser "utf8")
                                    (default_options "utf8"))
                     [("straightedges", VBool true); ("inputfile", VNone)])),
       w1).
Proof.
  destruct default_options_lookups as (Hrt & Hdbg & Hc & Hf).
  destruct (gather_module_plain "utf8" "pgf" (fun s => s) (fun _ => None)
              (fun _ => EmptyString) straight_graph (default_options "utf8")
              Sample.empty_world (VBool false) (VBool false)
              (assign (fill_defaults (create_options_parser "utf8")
                                     (default_options "utf8"))
                      [("straightedges", VBool true); ("inputfile", VNone)])
              VNone Hrt eq_refl (ex_intro _ _ Hdbg) Hc)
    as (w1 & Hg & _).
  - by vm_compute.
  - assert (d2toptions (strip_blank_lines (splitlines straight_graph))
            = Some "--straightedges") as -> by (by vm_compute).
    unfold parse_args.
    assert (plan (create_options_parser "utf8") (split "--straightedges")
            = inr [("straightedges", VBool true); ("inputfile", VNone)]) as ->
      by (by vm_compute).
    reflexivity.
  - by vm_compute.
  - exists w1. rewrite Hg.
    assert (strip_blank_lines (splitlines straight_graph) = straight_graph) as ->
     by (by vm_compute).
    assert (graph_format straight_graph = VStr "tikz") as -> by (by vm_compute).
    reflexivity.
Qed.

Lemma plain_gather src :
  search input_re src = None ->
  d2toptions (strip_blank_lines (splitlines src)) = None ->
  exists w1,
    Sample.sample_gather true src (default_options "utf8") Sample.empty_world
    = (Ok (strip_blank_lines (splitlines src),
           py_or (py_or VNone (graph_format (strip_blank_lines (splitlines src))))
                 (VStr "pgf"),
           <["format" := py_or (py_or VNone
                                  (graph_format (strip_blank_lines (splitlines src))))
                               (VStr "pgf")]> (default_options "utf8")),
       w1).
Proof.
  intros Hs Hd.
  destruct default_options_lookups as (Hrt & Hdbg & Hc & Hf).
  destruct (gather_module_plain "utf8" "pgf" (fun s => s) (fun _ => None)
              (fun _ => EmptyString) src (default_options "utf8")
              Sample.empty_world (VBool false) (VBool false)
              (default_options "utf8")
              VNone Hrt eq_refl (ex_intro _ _ Hdbg) Hc Hs)
    as (w1 & Hg & _); [by rewrite Hd|done|]. eauto.
Qed.


(** C2 on [straight_graph]. *)
Lemma straightedges_from_graph_witness :
  exists o w1,
    Sample.sample_gather true straight_graph (default_options "utf8") Sample.empty_world
    = (Ok (straight_graph, VStr "tikz", o), w1)
    /\ d2toptions straight_graph = Some "--straightedges"
    /\ split "--straightedges" = ["--straightedges"]
    /\ o !! "straightedges" = Some (VBool true)
    /\ Emitter.emit_edge o (0, 0)%Z [(10, 30)%Z; (40, 0)%Z]
       = Emitter.StraightLine (0, 0)%Z (40, 0)%Z.
Proof.
  destruct straight_graph_gather as (w1 & Hg).
  eexists _, w1. split; [exact Hg|].
  assert (Hx : d2toptions straight_graph = Some "--straightedges")
    by (vm_compute; reflexivity).
  destruct (straightedges_from_graph "utf8" "pgf" (fun s => s) (fun _ => None)
              (fun _ => EmptyString) true straight_graph
              (default_options "utf8") Sample.empty_world _ _ _ _
              "--straightedges" Hg Hx eq_refl) as [Hs He].
  split_and!; [exact Hx|reflexivity|exact Hs|apply He].
Defined.

(** C2 as stated fails on [two_options_graph]: the line is there, and the
    converter is made without straight edges. *)
Lemma second_d2toptions_ignored :
  In ("  d2toptions=" +:+ q +:+ "--straightedges" +:+ q +:+ ";" +:+ Sample.lf)
     (splitlines two_options_graph)
  /\ match (Sample.sample_gather true two_options_graph (default_options "utf8")
                          Sample.empty_world).1 with
     | Ok (_, _, o) =>
         Some (o !! "straightedges", o !! "debug",
               Emitter.emit_edge o (0, 0)%Z [(10, 30)%Z; (40, 0)%Z])
     | Raise _ => None
     end
     = Some (Some (VBool false), Some (VBool true),
             Emitter.Curve [(0, 0)%Z; (10, 30)%Z; (40, 0)%Z]).
Proof. split; [right; right; left; reflexivity | by vm_compute]. Qed.



(** C5 on a text that is not a graph. *)
Lemma parse_error_reraised_witness :
  exists w',
    Sample.sample_main true "not a graph" (default_options "utf8")
      Sample.empty_world
    = (Raise (ParseException "not a graph" 1 "Expected graph"), w').
Proof.
  destruct (plain_gather "not a graph") as (w1 & Hg); [by vm_compute..|].
  exact (proj1 (parse_error_reraised "utf8" "pgf" unit Sample.sample_new
                  Sample.sample_convert id (fun s => s) (fun _ => None)
                  (fun _ => EmptyString) "not a graph"
                  (default_options "utf8") Sample.empty_world _ _ _ _
                  Dot2PGFConv "not a graph" 1%Z "Expected graph"
                  Hg eq_refl eq_refl)).
Defined.





